(** * omada-exporter: session lifecycle and paginated client fetch

    A shallow embedding of the Go package [omada] (the controller client
    and [clients.go]) and the properties of its retry, pagination,
    de-duplication and session handling. *)

From Stdlib Require Import ZArith String Ascii List Bool Lia DecimalString
  DecimalZ.
From stdpp Require Import base decidable option list gmap strings.

Local Open Scope string_scope.
Local Open Scope Z_scope.
Local Open Scope list_scope.

(** ** Records of [clients.go] *)

(** [ConnectedClient]: one record of a client listing.  Go's [int64]
    fields are integers (no arithmetic is done on them), [string]s are
    byte strings.

    A [*ConnectedClient] is an [option ConnectedClient]: [Some c] points
    to the record [c], [None] is the nil pointer, which is what the
    decoder stores for a JSON [null].  A record is written through its
    pointer only by the decoder, and only while the pointer sits in the
    envelope being decoded into; the pointers appended to the accumulator
    are never written through again, so the records stand for the
    pointers. *)
Record ConnectedClient := {
  Active : bool;
  Activity : Z;
  ApMAC : string;
  ApName : string;
  AuthStatus : Z;
  Channel : Z;
  ConnectDevType : string;
  ConnectType : Z;
  DeviceType : string;
  DownPacket : Z;
  Guest : bool;
  HostName : string;
  IP : string;
  LastSeen : Z;
  MAC : string;
  Manager : bool;
  Name : string;
  PowerSave : bool;
  RadioID : Z;
  RSSI : Z;
  RxRate : Z;
  SignalLevel : Z;
  SignalRank : Z;
  SSID : string;
  TrafficDown : Z;
  TrafficUp : Z;
  TxRate : Z;
  UpPacket : Z;
  Uptime : Z;
  WifiMode : Z;
  Wireless : bool
}.

(** ** Panics

    A call returns a value or panics.  The client is built with a logger
    and a configuration (not nil pointers); the one panic left to the
    code of this package is the read of a field through a nil record
    pointer. *)
Inductive Outcome (A : Type) : Type :=
| Returns (a : A)
| Panics.

Arguments Returns {A} a.
Arguments Panics {A}.

#[global] Instance Outcome_ret : MRet Outcome := fun A a => Returns a.
#[global] Instance Outcome_bind : MBind Outcome :=
  fun A B f m => match m with Returns a => f a | Panics => Panics end.

(** [item.MAC] *)
Definition itemMAC (item : option ConnectedClient) : Outcome string :=
  match item with
  | Some c => Returns (MAC c)
  | None => Panics
  end.

(** ** [dedupeClients]

    The loop of [dedupeClients]: [seen] is the Go map used as a set of
    MAC addresses, [out] the slice the kept pointers are appended to. *)
Definition dedupeStep (st : gset string * list (option ConnectedClient))
    (item : option ConnectedClient) :
    Outcome (gset string * list (option ConnectedClient)) :=
  let '(seen, out) := st in
  mac ← itemMAC item;
  if decide (mac ∈ seen) then mret (seen, out)
  else mret ({[ mac ]} ∪ seen, out ++ [item]).

Fixpoint dedupeLoop (inp : list (option ConnectedClient))
    (st : gset string * list (option ConnectedClient)) :
    Outcome (gset string * list (option ConnectedClient)) :=
  match inp with
  | [] => mret st
  | item :: rest => st ← dedupeStep st item; dedupeLoop rest st
  end.

Definition dedupeClients (inp : list (option ConnectedClient)) :
    Outcome (list (option ConnectedClient)) :=
  st ← dedupeLoop inp (∅, []); mret (snd st).

(** The same selection in the words of the specification, for a sequence
    of records: the record at index [i] is kept exactly when no earlier
    record carries its MAC. *)
Fixpoint firstOccurrences (before inp : list ConnectedClient) :
    list ConnectedClient :=
  match inp with
  | [] => []
  | item :: rest =>
      if decide (MAC item ∈ map MAC before)
      then firstOccurrences (before ++ [item]) rest
      else item :: firstOccurrences (before ++ [item]) rest
  end.

(** A record with the given MAC and host name, every other field zero. *)
Definition clientOf (mac host : string) : ConnectedClient :=
  {| Active := false; Activity := 0; ApMAC := ""; ApName := "";
     AuthStatus := 0; Channel := 0; ConnectDevType := ""; ConnectType := 0;
     DeviceType := ""; DownPacket := 0; Guest := false; HostName := host;
     IP := ""; LastSeen := 0; MAC := mac; Manager := false; Name := "";
     PowerSave := false; RadioID := 0; RSSI := 0; RxRate := 0;
     SignalLevel := 0; SignalRank := 0; SSID := ""; TrafficDown := 0;
     TrafficUp := 0; TxRate := 0; UpPacket := 0; Uptime := 0; WifiMode := 0;
     Wireless := false |}.


(** ** Strings: [strings.TrimSuffix], [fmt]'s [%d], [url.QueryEscape] *)

Definition HasSuffix (s suffix : string) : bool :=
  (String.length suffix <=? String.length s)%nat
  && String.eqb
       (substring (String.length s - String.length suffix)
                  (String.length suffix) s)
       suffix.

Definition TrimSuffix (s suffix : string) : string :=
  if HasSuffix s suffix
  then substring 0 (String.length s - String.length suffix) s
  else s.

(** [%d] and, for an [int64], [%v]: the decimal numeral. *)
Definition formatInt (z : Z) : string := NilZero.string_of_int (Z.to_int z).

Definition inRange (lo hi c : ascii) : bool :=
  (N_of_ascii lo <=? N_of_ascii c)%N && (N_of_ascii c <=? N_of_ascii hi)%N.

(** [shouldEscape(c, encodeQueryComponent)] of [net/url]: letters, digits
    and [-_.~] are kept, every other byte is escaped. *)
Definition shouldEscape (c : ascii) : bool :=
  if inRange "a" "z" c || inRange "A" "Z" c || inRange "0" "9" c then false
  else if Ascii.eqb c "-" || Ascii.eqb c "_" || Ascii.eqb c "."
          || Ascii.eqb c "~" then false
  else true.

Definition upperhex : string := "0123456789ABCDEF".

Definition hexDigit (n : N) : ascii :=
  match String.get (N.to_nat n) upperhex with
  | Some c => c
  | None => "0"%char
  end.

(** [url.QueryEscape]: an escaped byte is written [%XX], except the
    space, which is written [+]. *)
Fixpoint QueryEscape (s : string) : string :=
  match s with
  | EmptyString => EmptyString
  | String c rest =>
      if shouldEscape c then
        if Ascii.eqb c " " then String "+" (QueryEscape rest)
        else String "%" (String (hexDigit (N.shiftr (N_of_ascii c) 4))
               (String (hexDigit (N.land (N_of_ascii c) 15))
                  (QueryEscape rest)))
      else String c (QueryEscape rest)
  end.

(** Reading a percent-encoded path segment back (RFC 3986): [%XX] stands
    for the byte [XX], every other byte for itself. *)
Definition unhex (c : ascii) : option N :=
  if inRange "0" "9" c then Some (N_of_ascii c - 48)%N
  else if inRange "a" "f" c then Some (N_of_ascii c - 97 + 10)%N
  else if inRange "A" "F" c then Some (N_of_ascii c - 65 + 10)%N
  else None.

Fixpoint percentDecode (s : string) : option string :=
  match s with
  | EmptyString => Some EmptyString
  | String c rest =>
      if Ascii.eqb c "%" then
        match rest with
        | String h (String l rest') =>
            match unhex h, unhex l, percentDecode rest' with
            | Some a, Some b, Some t =>
                Some (String (ascii_of_N (16 * a + b)) t)
            | _, _, _ => None
            end
        | _ => None
        end
      else
        match percentDecode rest with
        | Some t => Some (String c t)
        | None => None
        end
  end.

(** ** Errors *)

(** Go [error] values: the package's sentinel, an opaque message
    ([errors.New], [fmt.Errorf] without [%w], errors of the libraries), and
    an error wrapping another one.  A nil [error] is [None]. *)
Inductive error :=
| errTokenExpired
| errorString (msg : string)
| wrapError (msg : string) (inner : error).

#[global] Instance error_eq_dec : EqDecision error.
Proof. solve_decision. Defined.

Fixpoint unwrapsTo (err target : error) : bool :=
  if decide (err = target) then true
  else match err with
       | wrapError _ inner => unwrapsTo inner target
       | _ => false
       end.

(** [errors.Is] *)
Definition errors_Is (err : option error) (target : error) : bool :=
  match err with
  | None => false
  | Some e => unwrapsTo e target
  end.

(** ** Wire data *)

(** The nested struct of [ClientsResult]; [Data] is the slice
    [[]*ConnectedClient]. *)
Record ClientsPage := {
  CurrentPage : Z;
  CurrentSize : Z;
  TotalRows : Z;
  Data : list (option ConnectedClient)
}.

(** [ClientsResult]; [Result] is its nested struct. *)
Record ClientsResult := {
  ErrorCode : Z;
  Msg : string;
  Result : ClientsPage
}.

(** The zero value of [var r ClientsResult]. *)
Definition zeroClientsResult : ClientsResult :=
  {| ErrorCode := 0; Msg := "";
     Result := {| CurrentPage := 0; CurrentSize := 0; TotalRows := 0;
                  Data := [] |} |}.

(** [infoResult] and [authResult], the local types of [authenticate]. *)
Record infoResult := {
  irErrorCode : Z;
  irMsg : string;
  irControllerID : string
}.

Record authResult := {
  arErrorCode : Z;
  arMsg : string;
  arRoleType : Z;
  arToken : string
}.

Definition zeroInfoResult : infoResult :=
  {| irErrorCode := 0; irMsg := ""; irControllerID := "" |}.

Definition zeroAuthResult : authResult :=
  {| arErrorCode := 0; arMsg := ""; arRoleType := 0; arToken := "" |}.

Record Cookie := { cookieName : string; cookieValue : string }.

(** A request body: none, or the JSON object [json.Marshal] makes of a
    [map[string]string] (its pairs, keys in increasing order). *)
Inductive RequestBody :=
| NoBody
| JSONObject (kv : list (string * string)).

Record Request := {
  Method : string;
  URL : string;
  Header : gmap string string;
  Cookies : list Cookie;
  ReqBody : RequestBody
}.

(** A response body is what [json.Decoder.Decode] makes of it for each of
    the three target shapes: from the value the target holds, the value it
    holds afterwards and the error.  The decoder writes what the document
    names and leaves the rest of the target as it is, so the outcome
    depends on the target; after an error the target keeps what had been
    written before it. *)
Record Body := {
  asInfo : infoResult -> infoResult * option error;
  asAuth : authResult -> authResult * option error;
  asClients : ClientsResult -> ClientsResult * option error
}.

Record Response := {
  StatusCode : Z;
  Status : string;
  RespBody : Body
}.

(** ** The logger *)

Inductive Level := InfoLevel | WarnLevel.

Inductive Field :=
| zapString (key val : string)
| zapInt (key : string) (val : Z).

Record LogEntry := {
  level : Level;
  message : string;
  fields : list Field
}.

(** ** The environment: [net/http], [net/url] and [fmt]'s [%q] *)

Class Net := {
  (** the controller, the network and the cookie jar of the HTTP client *)
  World : Type;
  (** [c.http.Do(req)]: a transport error or a response *)
  http_Do : Request -> World -> World * (error + Response);
  (** [c.http.Jar.Cookies(u)] for [u] parsed from the given string *)
  Jar_Cookies : World -> string -> list Cookie;
  (** [url.JoinPath(base, elem)] *)
  url_JoinPath : string -> string -> error + string;
  (** the error of [http.NewRequest] for an URL, if it has one *)
  url_ParseErr : string -> option error;
  (** [%q] *)
  Quote : string -> string
}.

(** ** The client and its state *)

(** [Client].  The [http] field lives in the environment's [World], the
    mutex guards single field accesses and has no sequential content; the
    logger is the list of the entries written so far. *)
Record Client := {
  logger : list LogEntry;
  configPath : string;
  username : string;
  password : string;
  baseURL : string;
  token : string
}.

Definition withLogger (l : list LogEntry) (c : Client) : Client :=
  {| logger := l; configPath := configPath c; username := username c;
     password := password c; baseURL := baseURL c; token := token c |}.

Definition withBaseURL (b : string) (c : Client) : Client :=
  {| logger := logger c; configPath := configPath c; username := username c;
     password := password c; baseURL := b; token := token c |}.

Definition withToken (t : string) (c : Client) : Client :=
  {| logger := logger c; configPath := configPath c; username := username c;
     password := password c; baseURL := baseURL c; token := t |}.

(** A computation over a state [St] returning an [A]. *)
Definition ST (St A : Type) : Type := St -> St * A.

#[global] Instance ST_ret {St} : MRet (ST St) := fun A a s => (s, a).
#[global] Instance ST_bind {St} : MBind (ST St) :=
  fun A B f m s => let '(s', a) := m s in f a s'.

(** ** The retry-once policy, over any state and authenticator

    [retryLabel] is the code from the label [retry] on, for a value of
    [retried]; [again] is the jump back to the label. *)
Definition retryLabel {St R} (authenticate : ST St (option error))
    (try : R -> ST St (R * option error)) (retried : bool)
    (again : R -> ST St (R * option error)) (r : R) :
    ST St (R * option error) :=
  '(r, err) ← try r;
  if errors_Is err errTokenExpired && negb retried then
    err ← authenticate;
    match err with
    | Some e => mret (r, Some e)
    | None => again r
    end
  else mret (r, err).

(** The second pass has [retried = true], so it never jumps again. *)
Definition retryOnceWith {St R} (authenticate : ST St (option error))
    (try : R -> ST St (R * option error)) : R -> ST St (R * option error) :=
  retryLabel authenticate try false
    (retryLabel authenticate try true (fun r => mret (r, None))).

(** Counting the calls a run makes: the counters sit beside the state,
    out of reach of the operations themselves. *)
Record Calls := { tries : nat; auths : nat }.

Definition countTry {St R} (try : R -> ST St (R * option error)) :
    R -> ST (St * Calls) (R * option error) :=
  fun r '(s, n) =>
    let '(s', x) := try r s in
    ((s', {| tries := S (tries n); auths := auths n |}), x).

Definition countAuth {St} (authenticate : ST St (option error)) :
    ST (St * Calls) (option error) :=
  fun '(s, n) =>
    let '(s', x) := authenticate s in
    ((s', {| tries := tries n; auths := S (auths n) |}), x).

Section Client.
Context `{Net}.

(** The client and the environment; and, not part of the program, the
    outcomes of the runs of [authenticate] and the requests handed to the
    transport so far (latest last). *)
Record State := {
  client : Client;
  world : World;
  authLog : list bool;
  requests : list Request
}.

Definition withClient (c : Client) (s : State) : State :=
  {| client := c; world := world s; authLog := authLog s;
     requests := requests s |}.

Definition M (A : Type) : Type := ST State A.

Definition Token : M string := fun s => (s, token (client s)).

Definition SetToken (t : string) : M unit :=
  fun s => (withClient (withToken t (client s)) s, tt).

Definition BaseURL : M string := fun s => (s, baseURL (client s)).

Definition SetBaseURL (path : string) : M (option error) :=
  fun s =>
    match url_JoinPath (configPath (client s)) path with
    | inl err => (s, Some err)
    | inr newPath =>
        (withClient (withBaseURL (TrimSuffix newPath "/") (client s)) s, None)
    end.

Definition logWrite (e : LogEntry) : M unit :=
  fun s => (withClient (withLogger (logger (client s) ++ [e]) (client s)) s, tt).

(** [http.NewRequest] *)
Definition NewRequest (method url : string) (body : RequestBody) :
    error + Request :=
  match url_ParseErr url with
  | Some err => inl err
  | None => inr {| Method := method; URL := url; Header := ∅; Cookies := [];
                   ReqBody := body |}
  end.

Definition HeaderSet (k v : string) (req : Request) : Request :=
  {| Method := Method req; URL := URL req; Header := <[k := v]> (Header req);
     Cookies := Cookies req; ReqBody := ReqBody req |}.

Definition AddCookie (req : Request) (c : Cookie) : Request :=
  {| Method := Method req; URL := URL req; Header := Header req;
     Cookies := Cookies req ++ [c]; ReqBody := ReqBody req |}.

(** The state once [req] has been handed to the transport and the
    environment has become [w]. *)
Definition afterDo (req : Request) (w : World) (s : State) : State :=
  {| client := client s; world := w; authLog := authLog s;
     requests := requests s ++ [req] |}.

Definition Do (req : Request) : M (error + Response) :=
  fun s =>
    let '(w, res) := http_Do req (world s) in
    (afterDo req w s, res).

(** [c.http.Jar.Cookies(u)] with [u, _ := url.Parse(...)]: the code drops
    the error of the parse, and the environment answers for the string. *)
Definition JarCookies (u : string) : M (list Cookie) :=
  fun s => (s, Jar_Cookies (world s) u).

(** [doJSON]: [decode] stands for the shape of [target]; the new value of
    [target] is returned with the error.  Draining and closing the body
    has no effect on what follows. *)
Definition doJSON {T} (req : Request)
    (decode : Body -> T -> T * option error) (target : T) :
    M (T * option error) :=
  let req := HeaderSet "Accept"
               "application/json, text/javascript, */*; q=0.01" req in
  let req := HeaderSet "Accept-Language" "en-US,en;q=0.5" req in
  let req := HeaderSet "Content-Type" "application/json; charset=UTF-8" req in
  let req := HeaderSet "X-Requested-With" "XMLHttpRequest" req in
  tok ← Token;
  let req := HeaderSet "Csrf-Token" tok req in
  u ← BaseURL;
  cookies ← JarCookies u;
  let req := fold_left AddCookie cookies req in
  res ← Do req;
  match res with
  | inl err => mret (target, Some err)
  | inr res =>
      if StatusCode res =? 401 then mret (target, Some errTokenExpired)
      else if negb (StatusCode res =? 200) then
        mret (target,
              Some (errorString
                      (Quote (URL req) +:+ " returned " +:+ Quote (Status res))))
      else
        let '(target, err) := decode (RespBody res) target in
        match err with
        | Some err => mret (target, Some err)
        | None => mret (target, None)
        end
  end.

Definition postJSON {T} (url : string) (body : RequestBody)
    (decode : Body -> T -> T * option error) (target : T) :
    M (T * option error) :=
  base ← BaseURL;
  match NewRequest "POST" (base +:+ url) body with
  | inl err => mret (target, Some err)
  | inr req => doJSON req decode target
  end.

Definition getJSON {T} (url : string)
    (decode : Body -> T -> T * option error) (target : T) :
    M (T * option error) :=
  base ← BaseURL;
  match NewRequest "GET" (base +:+ url) NoBody with
  | inl err => mret (target, Some err)
  | inr req => doJSON req decode target
  end.

Definition logCookie (c : Cookie) : LogEntry :=
  {| level := InfoLevel; message := "Cookie after login";
     fields := [zapString "name" (cookieName c);
                zapString "value" (cookieValue c)] |}.

(** The loop logging the cookies after a login. *)
Fixpoint logCookies (cookies : list Cookie) : M unit :=
  match cookies with
  | [] => mret tt
  | c :: rest => _ ← logWrite (logCookie c); logCookies rest
  end.

Definition Username : M string := fun s => (s, username (client s)).
Definition Password : M string := fun s => (s, password (client s)).

(** The body of [authenticate].  [json.Marshal] of a map of strings has no
    error. *)
Definition authenticateBody : M (option error) :=
  _ ← SetToken "";
  err ← SetBaseURL "/";
  match err with
  | Some e => mret (Some e)
  | None =>
  '(ir, err) ← getJSON "/api/info" asInfo zeroInfoResult;
  match err with
  | Some e => mret (Some e)
  | None =>
  if String.eqb (irControllerID ir) "" then
    mret (Some (errorString ("missing controller ID: "
                  +:+ formatInt (irErrorCode ir) +:+ ": " +:+ Quote (irMsg ir))))
  else
  err ← SetBaseURL (irControllerID ir);
  match err with
  | Some e => mret (Some e)
  | None =>
  user ← Username;
  pass ← Password;
  let data := JSONObject [("password", pass); ("username", user)] in
  '(ar, err) ← postJSON "/api/v2/login" data asAuth zeroAuthResult;
  match err with
  | Some e => mret (Some e)
  | None =>
  if String.eqb (arToken ar) "" then
    mret (Some (errorString ("auth failed: "
                  +:+ formatInt (arErrorCode ar) +:+ ": " +:+ Quote (arMsg ar))))
  else
  _ ← SetToken (arToken ar);
  u ← BaseURL;
  cookies ← JarCookies u;
  _ ← logCookies cookies;
  mret None
  end end end end.

Definition noteAuth (ok : bool) (s : State) : State :=
  {| client := client s; world := world s; authLog := authLog s ++ [ok];
     requests := requests s |}.

(** [authenticate], noting its outcome in [authLog]. *)
Definition authenticate : M (option error) :=
  fun s =>
    let '(s', err) := authenticateBody s in
    (noteAuth (bool_decide (err = None)) s', err).

(** [NewClient], for the fields of the configuration it reads ([Secure]
    only selects the TLS policy of the transport, and making the cookie
    jar has no error): the state with the new client, and the error with
    which no client is handed out. *)
Definition NewClient (path user pass : string) (w : World) :
    State * option error :=
  authenticate
    {| client := {| logger := []; configPath := path; username := user;
                    password := pass; baseURL := TrimSuffix path "/";
                    token := "" |};
       world := w; authLog := []; requests := [] |}.

(** [retryOnce] *)
Definition retryOnce {R} (try : R -> M (R * option error)) :
    R -> M (R * option error) :=
  retryOnceWith authenticate try.

(** ** [ConnectedClients] *)

Definition maxPages : Z := 10.

Definition clientsPath (site : string) (currentPage : Z) : string :=
  "/api/v2/sites/" +:+ QueryEscape site +:+ "/clients?currentPage="
  +:+ formatInt currentPage +:+ "&currentPageSize=100&filters.active=true".

(** The closure [get]; [r] is the variable it decodes into, with the value
    it holds when the closure is called. *)
Definition get (site : string) (currentPage : Z) (r : ClientsResult) :
    M (ClientsResult * option error) :=
  '(r, err) ← getJSON (clientsPath site currentPage) asClients r;
  match err with
  | Some e => mret (r, Some e)
  | None =>
      if ErrorCode r =? -1200 then mret (r, Some errTokenExpired)
      else if negb (ErrorCode r =? 0) then
        mret (r, Some (errorString
                         (formatInt (ErrorCode r) +:+ ": " +:+ Msg r)))
      else mret (r, None)
  end.

(** The [for] loop: the final [currentPage], the accumulator and the error
    of the early [return].  Each iteration declares its own [r], so each
    fetch starts from the zero value.  One unit of [fuel] is used per
    iteration; from page 1 the loop test fails before [maxPages] units are
    used up, so the branch for no fuel is not reached. *)
Fixpoint pageLoop (fuel : nat) (site : string) (currentPage : Z)
    (clients : list (option ConnectedClient)) :
    M (Z * list (option ConnectedClient) * option error) :=
  if currentPage <=? maxPages then
    match fuel with
    | O => mret (currentPage, clients, None)
    | S fuel =>
        '(r, err) ← retryOnce (get site currentPage) zeroClientsResult;
        match err with
        | Some e => mret (currentPage, clients, Some e)
        | None =>
            let clients := clients ++ Data (Result r) in
            if (Z.of_nat (length clients) >=? TotalRows (Result r))
               || (Z.of_nat (length (Data (Result r))) =? 0)
            then mret (currentPage, clients, None)
            else pageLoop fuel site (currentPage + 1) clients
        end
    end
  else mret (currentPage, clients, None).

Definition tooManyPages (clients : list (option ConnectedClient)) :
    LogEntry :=
  {| level := WarnLevel;
     message := "stopped fetching clients after too many pages";
     fields := [zapInt "pages" maxPages;
                zapInt "clients" (Z.of_nat (length clients))] |}.

(** [ConnectedClients]: the returned slice ([None] is the nil slice) and
    the returned error, or the panic of [dedupeClients]. *)
Definition ConnectedClients (site : string) :
    M (Outcome (option (list (option ConnectedClient)) * option error)) :=
  '(currentPage, clients, err) ← pageLoop (Z.to_nat maxPages) site 1 [];
  match err with
  | Some e => mret (Returns (None, Some e))
  | None =>
      _ ← (if currentPage >? maxPages
           then logWrite (tooManyPages clients)
           else (mret tt : M unit));
      mret (match dedupeClients clients with
            | Returns out => Returns (Some out, None)
            | Panics => Panics
            end)
  end.

(** What the controller answers: the envelopes of [n] successive page
    fetches from page [p] on, [None] when one of them fails. *)
Fixpoint fetchPages (n : nat) (site : string) (p : Z) :
    M (option (list ClientsResult)) :=
  match n with
  | O => mret (Some [])
  | S n =>
      '(r, err) ← retryOnce (get site p) zeroClientsResult;
      match err with
      | Some _ => mret None
      | None =>
          rs ← fetchPages n site (p + 1);
          mret (match rs with Some rs => Some (r :: rs) | None => None end)
      end
  end.

End Client.

(** ** A scripted controller

    An environment for running the client on concrete exchanges: the
    controller answers the requests with the [pending] results, in order,
    and the requests it received are kept in [sent]. *)
Record Script := {
  pending : list (error + Response);
  sent : list Request;
  jar : list Cookie
}.

Definition scriptDo (req : Request) (w : Script) :
    Script * (error + Response) :=
  match pending w with
  | [] => ({| pending := []; sent := sent w ++ [req]; jar := jar w |},
           inl (errorString "connection refused"))
  | res :: rest =>
      ({| pending := rest; sent := sent w ++ [req]; jar := jar w |}, res)
  end.

(** Joining a segment onto a plain root; a root with no scheme is
    refused. *)
Definition scriptJoinPath (base elem : string) : error + string :=
  match base with
  | String ":" _ => inl (errorString "missing protocol scheme")
  | _ =>
      inr (TrimSuffix base "/" +:+ "/"
           +:+ match elem with String "/" rest => rest | _ => elem end)
  end.

Definition dquote : string := String (ascii_of_nat 34) EmptyString.

#[global] Instance scripted : Net := {|
  World := Script;
  http_Do := scriptDo;
  Jar_Cookies := fun w _ => jar w;
  url_JoinPath := scriptJoinPath;
  url_ParseErr := fun _ => None;
  Quote := fun s => dquote +:+ s +:+ dquote
|}.

(** Decoders of the documents of the scripted controller.  [whole v]: the
    document names every field of the target, which becomes [v] whatever
    it held.  [unreadable e]: decoding fails with [e] before anything is
    written. *)
Definition whole {T} (v : T) : T -> T * option error := fun _ => (v, None).

Definition unreadable {T} (e : error) : T -> T * option error :=
  fun target => (target, Some e).

(** An empty body. *)
Definition noBody : Body :=
  {| asInfo := unreadable (errorString "EOF");
     asAuth := unreadable (errorString "EOF");
     asClients := unreadable (errorString "EOF") |}.

Definition okResponse (b : Body) : error + Response :=
  inr {| StatusCode := 200; Status := "200 OK"; RespBody := b |}.

Definition statusResponse (code : Z) (status : string) : error + Response :=
  inr {| StatusCode := code; Status := status; RespBody := noBody |}.

(** The code and the message of a document, written into a target of
    another shape than the document's: the [result] of the target is not
    named by the document and stays. *)
Definition codeIntoInfo (code : Z) (msg : string) :
    infoResult -> infoResult * option error :=
  fun target =>
    ({| irErrorCode := code; irMsg := msg;
        irControllerID := irControllerID target |}, None).

Definition codeIntoAuth (code : Z) (msg : string) :
    authResult -> authResult * option error :=
  fun target =>
    ({| arErrorCode := code; arMsg := msg; arRoleType := arRoleType target;
        arToken := arToken target |}, None).

Definition codeIntoClients (code : Z) (msg : string) :
    ClientsResult -> ClientsResult * option error :=
  fun target =>
    ({| ErrorCode := code; Msg := msg; Result := Result target |}, None).

(** The answer of [/api/info]: code, message and controller identity. *)
Definition infoDoc (code : Z) (msg id : string) : Body :=
  {| asInfo := whole {| irErrorCode := code; irMsg := msg;
                        irControllerID := id |};
     asAuth := codeIntoAuth code msg;
     asClients := codeIntoClients code msg |}.

(** The answer of [/api/v2/login]: code, message, role 0 and token. *)
Definition loginDoc (code : Z) (msg tok : string) : Body :=
  {| asInfo := codeIntoInfo code msg;
     asAuth := whole {| arErrorCode := code; arMsg := msg; arRoleType := 0;
                        arToken := tok |};
     asClients := codeIntoClients code msg |}.

Definition infoBody (id : string) : Body := infoDoc 0 "" id.

Definition loginBody (tok : string) : Body := loginDoc 0 "" tok.

(** An envelope of records, none of them [null]. *)
Definition envelope (code : Z) (msg : string) (total : Z)
    (data : list ConnectedClient) : ClientsResult :=
  {| ErrorCode := code; Msg := msg;
     Result := {| CurrentPage := 0; CurrentSize := 100; TotalRows := total;
                  Data := map Some data |} |}.

(** A clients answer that spells out every field of the envelope [r] and
    of its records. *)
Definition clientsBody (r : ClientsResult) : Body :=
  {| asInfo := codeIntoInfo (ErrorCode r) (Msg r);
     asAuth := codeIntoAuth (ErrorCode r) (Msg r);
     asClients := whole r |}.

(** A client as [NewClient] builds it, before its first [authenticate]. *)
Definition newClient (path user pass : string) : Client :=
  {| logger := []; configPath := path; username := user; password := pass;
     baseURL := TrimSuffix path "/"; token := "" |}.

Definition scriptState (c : Client) (answers : list (error + Response)) :
    State :=
  {| client := c;
     world := {| pending := answers; sent := []; jar := [] |};
     authLog := []; requests := [] |}.

(** The same with cookies in the jar. *)
Definition scriptStateWith (cookies : list Cookie) (c : Client)
    (answers : list (error + Response)) : State :=
  {| client := c;
     world := {| pending := answers; sent := []; jar := cookies |};
     authLog := []; requests := [] |}.

(** A client logged in to the controller [abc123] with token [T0]. *)
Definition loggedIn : Client :=
  {| logger := []; configPath := "https://omada:8043"; username := "admin";
     password := "secret"; baseURL := "https://omada:8043/abc123";
     token := "T0" |}.

(** The MAC of the [i]th test client. *)
Definition macOf (i : nat) : string := "mac-" +:+ formatInt (Z.of_nat i).

Definition clientsFrom (start n : nat) : list ConnectedClient :=
  map (fun i => clientOf (macOf i) "host") (seq start n).

(** ** Notions used by the statements *)

Section Observations.
Context `{Net}.

(** The request [doJSON] hands to the transport for [req] in state [s]:
    the five headers, then the cookies of the jar. *)
Definition outgoing (req : Request) (s : State) : Request :=
  fold_left AddCookie (Jar_Cookies (world s) (baseURL (client s)))
    (HeaderSet "Csrf-Token" (token (client s))
       (HeaderSet "X-Requested-With" "XMLHttpRequest"
          (HeaderSet "Content-Type" "application/json; charset=UTF-8"
             (HeaderSet "Accept-Language" "en-US,en;q=0.5"
                (HeaderSet "Accept"
                   "application/json, text/javascript, */*; q=0.01" req))))).

(** The request [getJSON] or [postJSON] sends for a path in state [s]. *)
Definition requestOf (method url : string) (body : RequestBody) (s : State) :
    Request :=
  outgoing {| Method := method; URL := baseURL (client s) +:+ url;
              Header := ∅; Cookies := []; ReqBody := body |} s.

(** What [doJSON] makes of the transport's result for the request it
    sent: the new value of the target and the error. *)
Definition classify {T} (sentReq : Request)
    (decode : Body -> T -> T * option error) (target : T)
    (res : error + Response) : T * option error :=
  match res with
  | inl err => (target, Some err)
  | inr res =>
      if StatusCode res =? 401 then (target, Some errTokenExpired)
      else if negb (StatusCode res =? 200) then
        (target,
         Some (errorString
                 (Quote (URL sentReq) +:+ " returned " +:+ Quote (Status res))))
      else decode (RespBody res) target
  end.

(** What [get] makes of a decoded envelope. *)
Definition envelopeError (r : ClientsResult) : option error :=
  if ErrorCode r =? -1200 then Some errTokenExpired
  else if negb (ErrorCode r =? 0) then
    Some (errorString (formatInt (ErrorCode r) +:+ ": " +:+ Msg r))
  else None.

(** The [data] of a sequence of envelopes, in order. *)
Definition allData (rs : list ClientsResult) :
    list (option ConnectedClient) :=
  concat (map (fun r => Data (Result r)) rs).

(** The last statement of [ConnectedClients], reached when no fetch
    failed: [return dedupeClients(clients), nil]. *)
Definition returnDeduped (clients : list (option ConnectedClient)) :
    Outcome (option (list (option ConnectedClient)) * option error) :=
  out ← dedupeClients clients; mret (Some out, None).

(** The accumulator has reached the total that [r] declares once the
    records of [r] are appended to [acc]. *)
Definition reachesTotal (acc : list (option ConnectedClient))
    (r : ClientsResult) : bool :=
  Z.of_nat (length (acc ++ Data (Result r))) >=? TotalRows (Result r).

Definition emptyPage (r : ClientsResult) : bool :=
  match Data (Result r) with [] => true | _ => false end.

(** No page of [rs], appended in turn to [acc], reaches its declared total
    or is empty. *)
Fixpoint noStop (acc : list (option ConnectedClient))
    (rs : list ClientsResult) : bool :=
  match rs with
  | [] => true
  | r :: rest =>
      negb (reachesTotal acc r) && negb (emptyPage r)
      && noStop (acc ++ Data (Result r)) rest
  end.

(** The number of the first page of [rs] that reaches its declared total
    or is empty, pages counted from [1]. *)
Fixpoint breakPage (acc : list (option ConnectedClient))
    (rs : list ClientsResult) : option nat :=
  match rs with
  | [] => None
  | r :: rest =>
      if reachesTotal acc r || emptyPage r then Some 1%nat
      else option_map S (breakPage (acc ++ Data (Result r)) rest)
  end.

(** The state with the given token, base path and environment. *)
Definition sessionOf (tok base : string) (w : World) (s : State) : State :=
  {| client := withBaseURL base (withToken tok (client s)); world := w;
     authLog := authLog s; requests := requests s |}.

(** The body of the login request. *)
Definition credentials (s : State) : RequestBody :=
  JSONObject [("password", password (client s));
              ("username", username (client s))].

(** The token is set exactly when the latest run of [authenticate]
    succeeded. *)
Definition SessionInv (s : State) : Prop :=
  token (client s) <> "" <-> last (authLog s) = Some true.

(** Requests by what they ask for: a page of the clients of a site, or
    one of the two steps of the login. *)
Definition pageRequest (site : string) (p : Z) (req : Request) : Prop :=
  Method req = "GET" /\ exists base, URL req = base +:+ clientsPath site p.

Definition loginRequest (req : Request) : Prop :=
  exists base,
    URL req = base +:+ "/api/info" \/ URL req = base +:+ "/api/v2/login".

(** The requests of [l] belong to logins or ask for pages [lo..hi]. *)
Definition pagesAsked (site : string) (lo hi : Z) (l : list Request) : Prop :=
  Forall (fun req => loginRequest req
                     \/ exists q, lo <= q <= hi /\ pageRequest site q req) l.

Definition noCalls : Calls := {| tries := 0; auths := 0 |}.

(** The operation fails with the token-expired signal on every call. *)
Definition alwaysExpired {R} (try : R -> M (R * option error)) : Prop :=
  forall r s, errors_Is (snd (snd (try r s))) errTokenExpired = true.

End Observations.

(** An operation that never gets through: it fails with the signal and
    touches nothing. *)
Definition expiredOp : unit -> M (unit * option error) :=
  fun r s => (s, (r, Some errTokenExpired)).

(** Scripted runs: two pages of 100 and 1 records for a declared total of
    101 (the last record repeating a MAC of the first page); pages of one
    record each, with three MACs in turn, that never reach the declared
    1000; a page of three records, the third repeating the MAC of the
    first, followed by an empty page; a page of three records followed by
    a server error.  Each script holds more answers than the run should
    use. *)
Definition firstPage : ClientsResult := envelope 0 "" 101 (clientsFrom 0 100).
Definition secondPage : ClientsResult := envelope 0 "" 101 (clientsFrom 99 1).

Definition twoPages : State :=
  scriptState loggedIn
    [okResponse (clientsBody firstPage); okResponse (clientsBody secondPage);
     okResponse (clientsBody secondPage)].

Definition shortPage (i : nat) : ClientsResult :=
  envelope 0 "" 1000 (clientsFrom (i mod 3) 1).

Definition endlessPages : State :=
  scriptState loggedIn
    (map (fun i => okResponse (clientsBody (shortPage i))) (seq 0 12)).

Definition threeOfTen : ClientsResult := envelope 0 "" 10 (clientsFrom 0 3).
Definition noneOfTen : ClientsResult := envelope 0 "" 10 [].

Definition repeatedOfTen : ClientsResult :=
  envelope 0 "" 10
    [clientOf "aa" "h1"; clientOf "bb" "h2"; clientOf "aa" "h3"].

Definition emptySecondPage : State :=
  scriptState loggedIn
    [okResponse (clientsBody repeatedOfTen);
     okResponse (clientsBody noneOfTen); okResponse (clientsBody threeOfTen)].

Definition failingSecondPage : State :=
  scriptState loggedIn
    [okResponse (clientsBody threeOfTen);
     statusResponse 500 "500 Internal Server Error";
     okResponse (clientsBody threeOfTen)].

(** The string holds no space. *)
Fixpoint noSpace (s : string) : bool :=
  match s with
  | EmptyString => true
  | String c rest => negb (Ascii.eqb c " ") && noSpace rest
  end.

(** An environment like the scripted one that refuses, as [url.Parse]
    does, an URL holding an ASCII control character. *)
Fixpoint hasControl (s : string) : bool :=
  match s with
  | EmptyString => false
  | String c rest =>
      (N_of_ascii c <? 32)%N || (N_of_ascii c =? 127)%N || hasControl rest
  end.

Definition guarded : Net := {|
  World := Script;
  http_Do := scriptDo;
  Jar_Cookies := fun w _ => jar w;
  url_JoinPath := scriptJoinPath;
  url_ParseErr := fun u =>
    if hasControl u
    then Some (errorString "net/url: invalid control character in URL")
    else None;
  Quote := fun s => dquote +:+ s +:+ dquote
|}.

Definition guardedState (c : Client) (answers : list (error + Response)) :
    @State guarded :=
  @Build_State guarded c {| pending := answers; sent := []; jar := [] |} [] [].

(** A newline, the control character of the examples. *)
Definition newline : string := String (ascii_of_nat 10) EmptyString.

Section LoginNotions.
Context `{Net}.

(** The two requests of a login, for the joined root, the joined
    controller path and the environment the first answer left. *)
Definition infoRequest (rootPath : string) (s : State) : Request :=
  requestOf "GET" "/api/info" NoBody
    (sessionOf "" (TrimSuffix rootPath "/") (world s) s).

Definition loginRequestOf (newPath : string) (w1 : World) (s : State) :
    Request :=
  requestOf "POST" "/api/v2/login" (credentials s)
    (sessionOf "" (TrimSuffix newPath "/") w1 s).

End LoginNotions.

(** A client whose base path holds a control character. *)
Definition lostClient : Client :=
  {| logger := []; configPath := "https://omada:8043"; username := "admin";
     password := "secret"; baseURL := "https://omada:8043" +:+ newline;
     token := "T0" |}.

(** Reading a query-escaped string back, as [url.QueryUnescape] does:
    [+] stands for a space and [%XX] for the byte [XX]. *)
Fixpoint queryDecode (s : string) : option string :=
  match s with
  | EmptyString => Some EmptyString
  | String c rest =>
      if Ascii.eqb c "%" then
        match rest with
        | String h (String l rest') =>
            match unhex h, unhex l, queryDecode rest' with
            | Some a, Some b, Some t =>
                Some (String (ascii_of_N (16 * a + b)) t)
            | _, _, _ => None
            end
        | _ => None
        end
      else
        match queryDecode rest with
        | Some t => Some (String (if Ascii.eqb c "+" then " "%char else c) t)
        | None => None
        end
  end.

(** The bytes an escaped segment is made of: letters, digits, [-_.~], and
    the [%] and [+] of the escapes. *)
Definition segmentChar (c : ascii) : bool :=
  inRange "a" "z" c || inRange "A" "Z" c || inRange "0" "9" c
  || Ascii.eqb c "-" || Ascii.eqb c "_" || Ascii.eqb c "." || Ascii.eqb c "~"
  || Ascii.eqb c "%" || Ascii.eqb c "+".

Fixpoint allChars (P : ascii -> bool) (s : string) : bool :=
  match s with
  | EmptyString => true
  | String c rest => P c && allChars P rest
  end.

(** Answers of the two login steps with a code and a message. *)
Definition infoAnswer (code : Z) (msg id : string) : error + Response :=
  okResponse (infoDoc code msg id).

Definition loginAnswer (code : Z) (msg tok : string) : error + Response :=
  okResponse (loginDoc code msg tok).

(** A new client before its first login, and three controllers: one that
    answers both steps with nonzero codes yet names itself and gives a
    token, one that names no controller, one that gives no token. *)
Definition freshState (answers : list (error + Response)) : State :=
  scriptState (newClient "https://omada:8043" "admin" "secret") answers.

Definition oddCodes : State :=
  freshState [infoAnswer (-1200) "busy" "abc123"; loginAnswer 7 "odd" "T1"].

Definition noController : State :=
  freshState [infoAnswer (-1) "not ready" ""; loginAnswer 0 "" "T1"].

Definition noToken : State :=
  freshState [infoAnswer 0 "" "abc123"; loginAnswer (-30109) "bad password" ""].

(** The page request of a site, as [getJSON] builds it. *)
Definition pageRequestOf (site : string) (p : Z) (s : State) : Request :=
  {| Method := "GET"; URL := baseURL (client s) +:+ clientsPath site p;
     Header := ∅; Cookies := []; ReqBody := NoBody |}.

Definition noContent : State :=
  scriptState loggedIn [statusResponse 204 "204 No Content";
                        okResponse (clientsBody threeOfTen)].

(** The record [c] with the MAC [mac]. *)
Definition withMAC (mac : string) (c : ConnectedClient) : ConnectedClient :=
  {| Active := Active c; Activity := Activity c; ApMAC := ApMAC c;
     ApName := ApName c; AuthStatus := AuthStatus c; Channel := Channel c;
     ConnectDevType := ConnectDevType c; ConnectType := ConnectType c;
     DeviceType := DeviceType c; DownPacket := DownPacket c; Guest := Guest c;
     HostName := HostName c; IP := IP c; LastSeen := LastSeen c; MAC := mac;
     Manager := Manager c; Name := Name c; PowerSave := PowerSave c;
     RadioID := RadioID c; RSSI := RSSI c; RxRate := RxRate c;
     SignalLevel := SignalLevel c; SignalRank := SignalRank c; SSID := SSID c;
     TrafficDown := TrafficDown c; TrafficUp := TrafficUp c;
     TxRate := TxRate c; UpPacket := UpPacket c; Uptime := Uptime c;
     WifiMode := WifiMode c; Wireless := Wireless c |}.

(** A clients answer that names the code 0 and one record by its MAC, and
    nothing else: [{"errorCode":0,"result":{"data":[{"mac":...}]}}].  The
    decoder writes the code, cuts the slice of the target to one element
    and writes the MAC into the record its first pointer points to (a
    new record when the slice is empty or the pointer nil); the message,
    the counters and the other fields of that record stay. *)
Definition macOnlyDoc (mac : string) : Body :=
  {| asInfo := fun target => codeIntoInfo 0 (irMsg target) target;
     asAuth := fun target => codeIntoAuth 0 (arMsg target) target;
     asClients := fun target =>
       let first := match Data (Result target) with
                    | Some c :: _ => c
                    | _ => clientOf "" ""
                    end in
       ({| ErrorCode := 0; Msg := Msg target;
           Result := {| CurrentPage := CurrentPage (Result target);
                        CurrentSize := CurrentSize (Result target);
                        TotalRows := TotalRows (Result target);
                        Data := [Some (withMAC mac first)] |} |}, None) |}.

(** An answer that reports the expiry and yet carries a record and a
    total; after the login, an answer that names the MAC only. *)
Definition expiredWithData : ClientsResult :=
  envelope (-1200) "expired" 1 [clientOf "aa" "old-host"].

Definition staleRetry : State :=
  scriptState loggedIn
    [okResponse (clientsBody expiredWithData); okResponse (infoBody "abc123");
     okResponse (loginBody "T1"); okResponse (macOnlyDoc "aa");
     okResponse (clientsBody threeOfTen)].

(** A page of two whose second record is [null]. *)
Definition nullRecord : ClientsResult :=
  {| ErrorCode := 0; Msg := "";
     Result := {| CurrentPage := 1; CurrentSize := 100; TotalRows := 2;
                  Data := [Some (clientOf "aa" "h1"); None] |} |}.

Definition nullPage : State :=
  scriptState loggedIn [okResponse (clientsBody nullRecord)].

(** * Properties *)

(** ** De-duplication *)

Section Dedupe.

Implicit Types (inp before : list ConnectedClient) (seen : gset string).

Lemma dedupeLoop_firstOccurrences inp : forall before seen out,
  (forall m, m ∈ seen <-> m ∈ map MAC before) ->
  exists seen',
    dedupeLoop (map Some inp) (seen, out)
    = Returns (seen', out ++ map Some (firstOccurrences before inp)).
Proof.
  induction inp as [|item rest IH]; intros before seen out Hseen.
  - exists seen. simpl. by rewrite app_nil_r.
  - simpl map. simpl dedupeLoop. simpl firstOccurrences.
    unfold dedupeStep, itemMAC. simpl.
    destruct (decide (MAC item ∈ seen)) as [Hin|Hnin];
      destruct (decide (MAC item ∈ map MAC before)) as [Hin'|Hnin'];
      try (exfalso; apply Hseen in Hin; contradiction);
      try (exfalso; apply Hseen in Hin'; contradiction); simpl.
    + apply IH. intros m. rewrite map_app, elem_of_app, <- Hseen.
      simpl. rewrite list_elem_of_singleton. split; [tauto|].
      intros [?| ->]; done.
    + destruct (IH (before ++ [item]) ({[MAC item]} ∪ seen)
                  (out ++ [Some item])) as [seen' ->].
      * intros m. rewrite map_app, elem_of_app, <- Hseen, elem_of_union,
          elem_of_singleton. simpl. rewrite list_elem_of_singleton. tauto.
      * exists seen'. by rewrite <- app_assoc.
Qed.

(** On a slice without nil pointers [dedupeClients] returns, and returns
    the first occurrences. *)
Lemma dedupeClients_spec inp :
  dedupeClients (map Some inp) = Returns (map Some (firstOccurrences [] inp)).
Proof.
  unfold dedupeClients.
  destruct (dedupeLoop_firstOccurrences inp [] ∅ []) as [seen' ->]; [|done].
  intros m. simpl. rewrite elem_of_nil. set_solver.
Qed.

(** A nil pointer anywhere in the slice makes the loop panic. *)
Lemma dedupeLoop_nil (ptrs : list (option ConnectedClient)) : forall st,
  None ∈ ptrs -> dedupeLoop ptrs st = Panics.
Proof.
  induction ptrs as [|item rest IH]; intros [seen out] Hin.
  - by apply elem_of_nil in Hin.
  - simpl. destruct item as [c|]; [|done].
    apply elem_of_cons in Hin as [Hc|Hin]; [done|].
    unfold dedupeStep. simpl.
    destruct (decide (MAC c ∈ seen)); simpl; by apply IH.
Qed.

(** A slice of pointers holds records only, or a nil pointer. *)
Lemma records_or_nil (ptrs : list (option ConnectedClient)) :
  (exists recs, ptrs = map Some recs) \/ None ∈ ptrs.
Proof.
  induction ptrs as [|[c|] rest IH].
  - left. by exists [].
  - destruct IH as [[recs ->]|Hin].
    + left. by exists (c :: recs).
    + right. by apply elem_of_cons; right.
  - right. apply elem_of_cons. by left.
Qed.

Lemma firstOccurrences_keys inp : forall before m,
  m ∈ map MAC (firstOccurrences before inp)
  <-> m ∈ map MAC inp /\ m ∉ map MAC before.
Proof.
  induction inp as [|item rest IH]; intros before m; simpl.
  - rewrite elem_of_nil. tauto.
  - destruct (decide (MAC item ∈ map MAC before)) as [Hin|Hnin]; simpl;
      rewrite ?elem_of_cons, IH, map_app, elem_of_app; simpl;
      rewrite list_elem_of_singleton.
    + split; [tauto|]. intros [[->|?] ?]; [contradiction|].
      split; [done|]. intros [?| ->]; [done|]. contradiction.
    + split.
      * intros [->|[? ?]]; [tauto|]. tauto.
      * intros [[->|?] ?]; [tauto|].
        destruct (decide (m = MAC item)); [tauto|]. tauto.
Qed.

Lemma firstOccurrences_NoDup inp : forall before,
  NoDup (map MAC (firstOccurrences before inp)).
Proof.
  induction inp as [|item rest IH]; intros before; simpl.
  - constructor.
  - destruct (decide (MAC item ∈ map MAC before)); simpl; [apply IH|].
    constructor; [|apply IH].
    rewrite firstOccurrences_keys, map_app, elem_of_app. simpl.
    rewrite list_elem_of_singleton. tauto.
Qed.

Lemma firstOccurrences_sublist inp : forall before,
  sublist (firstOccurrences before inp) inp.
Proof.
  induction inp as [|item rest IH]; intros before; simpl; [constructor|].
  destruct (decide (MAC item ∈ map MAC before)).
  - apply sublist_cons, IH.
  - apply sublist_skip, IH.
Qed.

Lemma firstOccurrences_fixed inp : forall before,
  NoDup (map MAC inp) ->
  (forall m, m ∈ map MAC inp -> m ∉ map MAC before) ->
  firstOccurrences before inp = inp.
Proof.
  induction inp as [|item rest IH]; intros before Hnd Hdis; simpl; [done|].
  simpl in Hnd. apply NoDup_cons in Hnd as [Hnotin Hnd].
  destruct (decide (MAC item ∈ map MAC before)) as [Hin|_].
  - exfalso. apply (Hdis (MAC item)); [simpl; left|done].
  - f_equal. apply IH; [done|]. intros m Hm.
    rewrite map_app, elem_of_app. simpl. rewrite list_elem_of_singleton.
    intros [Hb| ->]; [|done].
    apply (Hdis m); [simpl; by right|done].
Qed.

Lemma firstOccurrences_index inp : forall before x,
  x ∈ firstOccurrences before inp
  <-> exists i, inp !! i = Some x /\ (MAC x ∉ map MAC before)
        /\ forall j y, (j < i)%nat -> inp !! j = Some y -> MAC y <> MAC x.
Proof.
  induction inp as [|item rest IH]; intros before x; simpl.
  - rewrite elem_of_nil. split; [done|]. intros (i & Hi & _). done.
  - assert (Hrest : x ∈ firstOccurrences (before ++ [item]) rest
       <-> exists i, rest !! i = Some x /\ (MAC x ∉ map MAC before)
             /\ MAC item <> MAC x
             /\ forall j y, (j < i)%nat -> rest !! j = Some y -> MAC y <> MAC x).
    { rewrite IH. split; intros (i & Hi & Hb & Hj); exists i.
      - rewrite map_app, elem_of_app in Hb. simpl in Hb.
        rewrite list_elem_of_singleton in Hb.
        repeat split; [done| tauto | |done]. intros E. apply Hb. by right.
      - destruct Hj as [Hne Hj]. repeat split; [done| |done].
        rewrite map_app, elem_of_app. simpl.
        rewrite list_elem_of_singleton. intros [?|?]; [done|].
        by apply Hne. }
    assert (Hhere : x ∈ item :: firstOccurrences (before ++ [item]) rest
       <-> x = item \/ x ∈ firstOccurrences (before ++ [item]) rest)
      by apply elem_of_cons.
    split.
    + intros Hx.
      destruct (decide (MAC item ∈ map MAC before)) as [Hin|Hnin].
      * apply Hrest in Hx as (i & Hi & Hb & Hne & Hj).
        exists (S i). repeat split; [done|done|].
        intros [|j] y Hlt Hy; simpl in Hy; [inversion Hy; by subst|].
        apply (Hj j); [lia|done].
      * apply Hhere in Hx as [->|Hx].
        -- exists 0%nat. repeat split; [done|]. intros; lia.
        -- apply Hrest in Hx as (i & Hi & Hb & Hne & Hj).
           exists (S i). repeat split; [done|done|].
           intros [|j] y Hlt Hy; simpl in Hy; [inversion Hy; by subst|].
           apply (Hj j); [lia|done].
    + intros (i & Hi & Hb & Hj).
      destruct i as [|i]; simpl in Hi.
      * inversion Hi; subst.
        destruct (decide (MAC x ∈ map MAC before)); [done|].
        apply Hhere. by left.
      * assert (x ∈ firstOccurrences (before ++ [item]) rest) as Hx.
        { apply Hrest. exists i. repeat split; [done|done| |].
          - apply (Hj 0%nat item); [lia|done].
          - intros j y Hlt Hy. apply (Hj (S j)); [lia|done]. }
        destruct (decide (MAC item ∈ map MAC before)); [done|].
        apply Hhere. by right.
Qed.

End Dedupe.

(** C2. For every sequence of client records, [dedupeClients] returns a
    sequence that keeps, for every MAC of its input, exactly one record:
    the first one carrying it, in the order of the input; and applying it
    to its own output changes nothing. *)
Theorem dedupeClients_first_occurrence (inp : list ConnectedClient) :
  exists out,
    dedupeClients (map Some inp) = Returns (map Some out)
    /\ NoDup (map MAC out)
    /\ (forall m, m ∈ map MAC out <-> m ∈ map MAC inp)
    /\ sublist out inp
    /\ (forall x, x ∈ out <->
          exists i, inp !! i = Some x
            /\ forall j y, (j < i)%nat -> inp !! j = Some y -> MAC y <> MAC x)
    /\ out = firstOccurrences [] inp
    /\ dedupeClients (map Some out) = Returns (map Some out).
Proof.
  exists (firstOccurrences [] inp). rewrite !dedupeClients_spec.
  split; [done|].
  split; [apply firstOccurrences_NoDup|].
  split.
  { intros m. rewrite firstOccurrences_keys. simpl. rewrite elem_of_nil. tauto. }
  split; [apply firstOccurrences_sublist|].
  split.
  { intros x. rewrite firstOccurrences_index. simpl.
    split; intros (i & Hi & H); exists i.
    - tauto.
    - repeat split; [done| |done]. apply not_elem_of_nil. }
  split; [done|].
  do 2 f_equal.
  apply firstOccurrences_fixed; [apply firstOccurrences_NoDup|].
  intros m _. apply not_elem_of_nil.
Qed.

Example dedupe_demo :
  dedupeClients [Some (clientOf "aa" "h1"); Some (clientOf "bb" "h2");
                 Some (clientOf "aa" "h3"); Some (clientOf "cc" "h4");
                 Some (clientOf "bb" "h5")]
  = Returns [Some (clientOf "aa" "h1"); Some (clientOf "bb" "h2");
             Some (clientOf "cc" "h4")].
Proof. vm_compute. reflexivity. Qed.

(** A [null] among the records: the read of its MAC panics. *)
Example dedupe_null :
  dedupeClients [Some (clientOf "aa" "h1"); None; Some (clientOf "bb" "h2")]
  = Panics.
Proof. vm_compute. reflexivity. Qed.

(** ** Strings *)

Lemma substring_whole (q : string) : substring 0 (String.length q) q = q.
Proof. induction q as [|c q IH]; simpl; [done|]. by rewrite IH. Qed.

Lemma substring_append_right (p q : string) :
  substring (String.length p) (String.length q) (p +:+ q) = q.
Proof. induction p as [|c p IH]; simpl; [apply substring_whole|done]. Qed.

Lemma substring_append_left (p q : string) :
  substring 0 (String.length p) (p +:+ q) = p.
Proof.
  induction p as [|c p IH]; simpl; [by destruct q|]. by rewrite IH.
Qed.

Lemma length_append (p q : string) :
  String.length (p +:+ q) = (String.length p + String.length q)%nat.
Proof. induction p as [|c p IH]; simpl; [done|]. by rewrite IH. Qed.

Lemma HasSuffix_append (p q : string) : HasSuffix (p +:+ q) q = true.
Proof.
  unfold HasSuffix. rewrite length_append.
  replace (String.length p + String.length q - String.length q)%nat
    with (String.length p) by lia.
  rewrite substring_append_right, String.eqb_refl, andb_true_r.
  apply Nat.leb_le. lia.
Qed.

Lemma TrimSuffix_append (p q : string) : TrimSuffix (p +:+ q) q = p.
Proof.
  unfold TrimSuffix. rewrite HasSuffix_append, length_append.
  replace (String.length p + String.length q - String.length q)%nat
    with (String.length p) by lia.
  apply substring_append_left.
Qed.

Lemma TrimSuffix_none (s q : string) :
  HasSuffix s q = false -> TrimSuffix s q = s.
Proof. unfold TrimSuffix. by intros ->. Qed.

(** ** The base path *)

Section BasePath.
Context `{Net}.

(** C7. [SetBaseURL] joins the segment onto [configPath], whatever the
    current base path is, and drops a trailing separator of the result;
    calling it a second time with the same segment changes nothing. *)
Theorem SetBaseURL_idempotent (seg : string) (s : State) :
  let '(s1, e1) := SetBaseURL seg s in
  let '(s2, e2) := SetBaseURL seg s1 in
  s2 = s1 /\ e2 = e1
  /\ configPath (client s1) = configPath (client s)
  /\ match url_JoinPath (configPath (client s)) seg with
     | inl err => e1 = Some err /\ s1 = s
     | inr newPath =>
         e1 = None
         /\ baseURL (client s1) = TrimSuffix newPath "/"
         /\ (forall p, newPath = p +:+ "/" -> baseURL (client s1) = p)
         /\ (HasSuffix newPath "/" = false -> baseURL (client s1) = newPath)
         /\ forall s' : State,
              configPath (client s') = configPath (client s) ->
              baseURL (client (fst (SetBaseURL seg s'))) = baseURL (client s1)
     end.
Proof.
  unfold SetBaseURL.
  destruct (url_JoinPath (configPath (client s)) seg) as [err|newPath] eqn:E.
  - rewrite E. done.
  - simpl. rewrite E. simpl. repeat split.
    + intros p ->. apply TrimSuffix_append.
    + apply TrimSuffix_none.
    + intros s' ->. by rewrite E.
Qed.

End BasePath.

(** With a base path that already carries a controller identity, the
    second discovery replaces it instead of extending it. *)
Example SetBaseURL_twice :
  let '(s1, _) := SetBaseURL "abc123" (scriptState loggedIn []) in
  let '(s2, _) := SetBaseURL "abc123" s1 in
  baseURL (client s1) = "https://omada:8043/abc123"
  /\ baseURL (client s2) = "https://omada:8043/abc123".
Proof. vm_compute. done. Qed.

(** Resetting the base path of a logged-in client to the root, twice. *)
Lemma SetBaseURL_idempotent_witness :
  let s := scriptState loggedIn [] in
  url_JoinPath (configPath (client s)) "/" = inr ("https://omada:8043" +:+ "/")
  /\ baseURL (client (fst (SetBaseURL "/" s))) = "https://omada:8043"
  /\ fst (SetBaseURL "/" (fst (SetBaseURL "/" s))) = fst (SetBaseURL "/" s).
Proof.
  intros s. pose proof (SetBaseURL_idempotent "/" s) as Hc.
  destruct (SetBaseURL "/" s) as [s1 e1] eqn:E1.
  destruct (SetBaseURL "/" s1) as [s2 e2] eqn:E2.
  change (url_JoinPath (configPath (client s)) "/")
    with (inr ("https://omada:8043" +:+ "/") : error + string) in Hc.
  destruct Hc as (H2 & _ & _ & _ & _ & Hp & _).
  split; [reflexivity|]. split.
  - apply (Hp "https://omada:8043"). reflexivity.
  - simpl. rewrite E2. exact H2.
Defined.

(** ** The site segment of the request path *)

Lemma percentDecode_cons (c : ascii) (u : string) :
  percentDecode (String c u) =
    if Ascii.eqb c "%" then
      match u with
      | String h (String l rest) =>
          match unhex h, unhex l, percentDecode rest with
          | Some a, Some b, Some t => Some (String (ascii_of_N (16 * a + b)) t)
          | _, _, _ => None
          end
      | _ => None
      end
    else match percentDecode u with
         | Some t => Some (String c t)
         | None => None
         end.
Proof. reflexivity. Qed.

Lemma percentDecode_escaped (c : ascii) (u t : string) :
  Ascii.eqb c " " = false ->
  percentDecode u = Some t ->
  percentDecode (QueryEscape (String c EmptyString) +:+ u)
  = Some (String c t).
Proof.
  intros Hc Hu.
  destruct c as [[] [] [] [] [] [] [] []]; try discriminate Hc;
    match goal with
    | |- context [QueryEscape ?x] =>
        let e := eval vm_compute in (QueryEscape x) in
        change (QueryEscape x) with e
    end;
    cbv [String.append]; rewrite percentDecode_cons; cbn [Ascii.eqb Bool.eqb];
    rewrite Hu; reflexivity.
Qed.

Lemma QueryEscape_cons (c : ascii) (rest : string) :
  QueryEscape (String c rest)
  = QueryEscape (String c EmptyString) +:+ QueryEscape rest.
Proof.
  simpl. destruct (shouldEscape c); [|done].
  by destruct (Ascii.eqb c " ").
Qed.

(** Away from the space, the segment is the percent-encoding of the
    site: it reads back as the site. *)
Lemma QueryEscape_reads_back (site : string) :
  noSpace site = true -> percentDecode (QueryEscape site) = Some site.
Proof.
  induction site as [|c rest IH]; [done|].
  simpl noSpace. intros [Hc Hrest]%andb_true_iff.
  apply negb_true_iff in Hc.
  rewrite QueryEscape_cons. by apply percentDecode_escaped, IH.
Qed.

(** C8. For the site [My Site], the segment put into the request path is
    [My+Site]: the space is written [+], not [%20], and the segment
    reads back as a different site name. *)
Theorem clientsPath_space_not_percent_encoded :
  clientsPath "My Site" 1
  = "/api/v2/sites/My+Site/clients?currentPage=1&currentPageSize=100&filters.active=true"
  /\ QueryEscape "My Site" = "My+Site"
  /\ percentDecode (QueryEscape "My Site") = Some "My+Site"
  /\ percentDecode (QueryEscape "My Site") <> Some "My Site"
  /\ percentDecode "My%20Site" = Some "My Site".
Proof. vm_compute. repeat split; done. Qed.

(** ** The retry-once policy *)

Ltac unfold_st := unfold mbind, mret, ST_bind, ST_ret in *.

Lemma retryOnceWith_run {St R} (auth : ST St (option error))
    (try : R -> ST St (R * option error)) (r : R) (s : St) :
  retryOnceWith auth try r s =
    let '(s1, (r1, e1)) := try r s in
    if errors_Is e1 errTokenExpired then
      let '(s2, ae) := auth s1 in
      match ae with
      | Some e => (s2, (r1, Some e))
      | None => try r1 s2
      end
    else (s1, (r1, e1)).
Proof.
  unfold retryOnceWith, retryLabel. unfold_st.
  destruct (try r s) as [s1 [r1 e1]].
  destruct (errors_Is e1 errTokenExpired); simpl; [|done].
  destruct (auth s1) as [s2 [e|]]; [done|].
  destruct (try r1 s2) as [s3 [r3 e3]].
  by rewrite andb_false_r.
Qed.

Lemma retryOnceWith_counted {St R} (auth : ST St (option error))
    (try : R -> ST St (R * option error)) (r : R) (s : St) (n : Calls) :
  retryOnceWith (countAuth auth) (countTry try) r (s, n) =
    let '(s1, (r1, e1)) := try r s in
    if errors_Is e1 errTokenExpired then
      let '(s2, ae) := auth s1 in
      match ae with
      | Some e =>
          ((s2, {| tries := S (tries n); auths := S (auths n) |}),
           (r1, Some e))
      | None =>
          let '(s3, x) := try r1 s2 in
          ((s3, {| tries := S (S (tries n)); auths := S (auths n) |}), x)
      end
    else ((s1, {| tries := S (tries n); auths := auths n |}), (r1, e1)).
Proof.
  rewrite retryOnceWith_run. unfold countTry, countAuth.
  destruct (try r s) as [s1 [r1 e1]].
  destruct (errors_Is e1 errTokenExpired); [|done].
  destruct (auth s1) as [s2 [e|]]; [done|]. simpl.
  by destruct (try r1 s2) as [s3 x].
Qed.

Section RetryOnce.
Context `{Net}.

Lemma retryOnce_run {R} (try : R -> M (R * option error)) (r : R) (s : State) :
  retryOnce try r s =
    let '(s1, (r1, e1)) := try r s in
    if errors_Is e1 errTokenExpired then
      let '(s2, ae) := authenticate s1 in
      match ae with
      | Some e => (s2, (r1, Some e))
      | None => try r1 s2
      end
    else (s1, (r1, e1)).
Proof. apply retryOnceWith_run. Qed.

(** C1. Whatever the operation does, [retryOnce] returns its first
    result unless that is a token-expired failure; then it runs
    [authenticate] once, returns at once when that fails, and otherwise
    runs the operation a second and last time and returns that result.
    For an operation that always fails with the signal: two calls of the
    operation and one of [authenticate] when the login succeeds, one and
    one when it fails. *)
Theorem retryOnce_bound {R} (try : R -> M (R * option error)) (r : R)
    (s : State) :
  let '(s1, (r1, e1)) := try r s in
  let '(s2, ae) := authenticate s1 in
  let '(s3, (r3, e3)) := try r1 s2 in
  let run := retryOnceWith (countAuth authenticate) (countTry try) r
               (s, noCalls) in
  retryOnce try r s = (fst (fst run), snd run)
  /\ (errors_Is e1 errTokenExpired = false ->
        run = ((s1, {| tries := 1; auths := 0 |}), (r1, e1)))
  /\ (errors_Is e1 errTokenExpired = true ->
        match ae with
        | Some e => run = ((s2, {| tries := 1; auths := 1 |}), (r1, Some e))
        | None => run = ((s3, {| tries := 2; auths := 1 |}), (r3, e3))
        end)
  /\ (alwaysExpired try ->
        errors_Is e1 errTokenExpired = true
        /\ errors_Is e3 errTokenExpired = true).
Proof.
  pose proof (retryOnce_run try r s) as Hplain.
  pose proof (retryOnceWith_counted authenticate try r s noCalls) as Hrun.
  destruct (try r s) as [s1 [r1 e1]] eqn:E1.
  destruct (authenticate s1) as [s2 ae] eqn:E2.
  destruct (try r1 s2) as [s3 [r3 e3]] eqn:E3.
  cbv zeta. rewrite Hrun, Hplain. clear Hrun Hplain.
  assert (Hsecond : alwaysExpired try -> errors_Is e3 errTokenExpired = true).
  { intros Hall. specialize (Hall r1 s2). by rewrite E3 in Hall. }
  assert (Hfirst : alwaysExpired try -> errors_Is e1 errTokenExpired = true).
  { intros Hall. specialize (Hall r s). by rewrite E1 in Hall. }
  destruct (errors_Is e1 errTokenExpired) eqn:Ee1.
  - destruct ae as [e|]; simpl; (split; [done|]); (split; [done|]);
      (split; [done|]); intros Hall; auto.
  - simpl. split; [done|]. split; [done|]. split; [done|].
    intros Hall; auto.
Qed.

End RetryOnce.

(** With the login answered, the operation that always fails is called
    twice and [authenticate] once. *)
Lemma retryOnce_bound_witness :
  let s := scriptState loggedIn
             [okResponse (infoBody "abc123"); okResponse (loginBody "T1")] in
  let run := retryOnceWith (countAuth authenticate) (countTry expiredOp) tt
               (s, noCalls) in
  alwaysExpired expiredOp
  /\ snd (fst run) = {| tries := 2; auths := 1 |}
  /\ snd (snd run) = Some errTokenExpired.
Proof.
  split; [intros r s; reflexivity|].
  generalize (retryOnce_bound expiredOp tt
    (scriptState loggedIn
       [okResponse (infoBody "abc123"); okResponse (loginBody "T1")])).
  vm_compute. intros (_ & _ & Hb & _). specialize (Hb eq_refl).
  split; [exact (f_equal (fun x => snd (fst x)) Hb)
         |exact (f_equal (fun x => snd (snd x)) Hb)].
Defined.

(** C1, as it was stated: with the controller unreachable the login
    fails, and the operation that always fails is called once, not
    twice; the error returned is the one of the login. *)
Lemma retryOnce_login_failure_counterexample :
  let run := retryOnceWith (countAuth authenticate) (countTry expiredOp) tt
               (scriptState loggedIn [], noCalls) in
  alwaysExpired expiredOp
  /\ snd (fst run) = {| tries := 1; auths := 1 |}
  /\ tries (snd (fst run)) <> 2%nat
  /\ snd (snd run) = Some (errorString "connection refused").
Proof.
  split; [intros r s; reflexivity|].
  vm_compute. repeat split; discriminate.
Qed.

(** ** The request layer *)

Section Requests.
Context `{Net}.

Lemma doJSON_run {T} (req : Request)
    (decode : Body -> T -> T * option error) (target : T) (s : State) :
  doJSON req decode target s =
    let '(w, res) := http_Do (outgoing req s) (world s) in
    (afterDo (outgoing req s) w s,
     classify (outgoing req s) decode target res).
Proof.
  unfold doJSON, outgoing, classify, Token, BaseURL, JarCookies, Do.
  unfold_st.
  destruct (http_Do _ (world s)) as [w [err|res]]; [done|].
  destruct (StatusCode res =? 401); [done|].
  destruct (negb (StatusCode res =? 200)); [done|].
  by destruct (decode (RespBody res) target) as [v [e|]].
Qed.

Lemma sendJSON_run {T} (method url : string) (body : RequestBody)
    (decode : Body -> T -> T * option error) (target : T) (s : State) :
  (base ← BaseURL;
   match NewRequest method (base +:+ url) body with
   | inl err => mret (target, Some err)
   | inr req => doJSON req decode target
   end) s =
    match url_ParseErr (baseURL (client s) +:+ url) with
    | Some err => (s, (target, Some err))
    | None =>
        let '(w, res) := http_Do (requestOf method url body s) (world s) in
        (afterDo (requestOf method url body s) w s,
         classify (requestOf method url body s) decode target res)
    end.
Proof.
  unfold BaseURL, NewRequest, requestOf. unfold_st.
  destruct (url_ParseErr _); [done|]. apply doJSON_run.
Qed.

Lemma getJSON_run {T} (url : string)
    (decode : Body -> T -> T * option error) (target : T) (s : State) :
  getJSON url decode target s =
    match url_ParseErr (baseURL (client s) +:+ url) with
    | Some err => (s, (target, Some err))
    | None =>
        let '(w, res) := http_Do (requestOf "GET" url NoBody s) (world s) in
        (afterDo (requestOf "GET" url NoBody s) w s,
         classify (requestOf "GET" url NoBody s) decode target res)
    end.
Proof. apply sendJSON_run. Qed.

Lemma postJSON_run {T} (url : string) (body : RequestBody)
    (decode : Body -> T -> T * option error) (target : T) (s : State) :
  postJSON url body decode target s =
    match url_ParseErr (baseURL (client s) +:+ url) with
    | Some err => (s, (target, Some err))
    | None =>
        let '(w, res) := http_Do (requestOf "POST" url body s) (world s) in
        (afterDo (requestOf "POST" url body s) w s,
         classify (requestOf "POST" url body s) decode target res)
    end.
Proof. apply sendJSON_run. Qed.

(** The request carries the token and the base path of the session. *)
Lemma requestOf_session (method url : string) (body : RequestBody)
    (s : State) :
  URL (requestOf method url body s) = baseURL (client s) +:+ url
  /\ Header (requestOf method url body s) !! "Csrf-Token"
     = Some (token (client s))
  /\ Method (requestOf method url body s) = method
  /\ ReqBody (requestOf method url body s) = body.
Proof.
  unfold requestOf, outgoing.
  generalize (Jar_Cookies (world s) (baseURL (client s))).
  intros cookies.
  match goal with
  | |- context [fold_left AddCookie cookies ?r] =>
      assert (Hr : URL r = baseURL (client s) +:+ url
                   /\ Header r !! "Csrf-Token" = Some (token (client s))
                   /\ Method r = method /\ ReqBody r = body);
      [simpl; by rewrite lookup_insert_eq|generalize dependent r]
  end.
  induction cookies as [|c cookies IH]; intros r Hr; simpl; [done|].
  apply IH. by destruct r.
Qed.

Lemma getJSON_sends {T} (url : string)
    (decode : Body -> T -> T * option error) (target : T) (s : State) :
  url_ParseErr (baseURL (client s) +:+ url) = None ->
  requests (fst (getJSON url decode target s))
  = requests s ++ [requestOf "GET" url NoBody s].
Proof.
  intros Hparse. rewrite getJSON_run, Hparse.
  by destruct (http_Do _ (world s)).
Qed.

Lemma get_run (site : string) (p : Z) (r0 : ClientsResult) (s : State) :
  get site p r0 s =
    let '(s', (r, err)) := getJSON (clientsPath site p) asClients r0 s in
    match err with
    | Some e => (s', (r, Some e))
    | None => (s', (r, envelopeError r))
    end.
Proof.
  unfold get, envelopeError. unfold_st.
  destruct (getJSON _ _ _ s) as [s' [r [e|]]]; [done|].
  destruct (ErrorCode r =? -1200); [done|].
  by destruct (negb (ErrorCode r =? 0)).
Qed.

Lemma ConnectedClients_run (site : string) (s : State) :
  ConnectedClients site s =
    let '(s', (currentPage, clients, err)) :=
      pageLoop (Z.to_nat maxPages) site 1 [] s in
    match err with
    | Some e => (s', Returns (None, Some e))
    | None =>
        (if currentPage >? maxPages
         then fst (logWrite (tooManyPages clients) s') else s',
         returnDeduped clients)
    end.
Proof.
  unfold ConnectedClients. unfold_st.
  destruct (pageLoop _ site 1 [] s) as [s' [[cp cl] [e|]]]; [done|].
  by destruct (cp >? maxPages).
Qed.

Lemma requestOf_info (s : State) :
  loginRequest (requestOf "GET" "/api/info" NoBody s).
Proof.
  exists (baseURL (client s)). left. apply requestOf_session.
Qed.

Lemma requestOf_login (body : RequestBody) (s : State) :
  loginRequest (requestOf "POST" "/api/v2/login" body s).
Proof.
  exists (baseURL (client s)). right. apply requestOf_session.
Qed.

Lemma requestOf_page (site : string) (p : Z) (s : State) :
  pageRequest site p (requestOf "GET" (clientsPath site p) NoBody s).
Proof.
  split; [apply requestOf_session|].
  exists (baseURL (client s)). apply requestOf_session.
Qed.

(** C6. A response with status 401 makes [doJSON] fail with
    [errTokenExpired] whatever its body; an envelope with [errorCode]
    -1200 in a 200 response makes [get] fail with the same value, which
    [retryOnce] answers with a login; any other nonzero [errorCode] gives
    an error made of the code and the message, which [retryOnce] returns
    as it is. *)
Theorem token_expiry_signals :
  (forall T (decode : Body -> T -> T * option error) (target : T) req s w
          res,
     http_Do (outgoing req s) (world s) = (w, inr res) ->
     StatusCode res = 401 ->
     doJSON req decode target s
     = (afterDo (outgoing req s) w s, (target, Some errTokenExpired)))
  /\ (forall site p r0 s w res r,
        url_ParseErr (baseURL (client s) +:+ clientsPath site p) = None ->
        http_Do (requestOf "GET" (clientsPath site p) NoBody s) (world s)
        = (w, inr res) ->
        StatusCode res = 200 ->
        asClients (RespBody res) r0 = (r, None) ->
        let s' := afterDo (requestOf "GET" (clientsPath site p) NoBody s) w s in
        (ErrorCode r = -1200 ->
           get site p r0 s = (s', (r, Some errTokenExpired))
           /\ errors_Is (Some errTokenExpired) errTokenExpired = true
           /\ retryOnce (get site p) r0 s =
                let '(s2, ae) := authenticate s' in
                match ae with
                | Some e => (s2, (r, Some e))
                | None => get site p r s2
                end)
        /\ (ErrorCode r <> 0 -> ErrorCode r <> -1200 ->
              let e := errorString
                         (formatInt (ErrorCode r) +:+ ": " +:+ Msg r) in
              get site p r0 s = (s', (r, Some e))
              /\ errors_Is (Some e) errTokenExpired = false
              /\ retryOnce (get site p) r0 s = (s', (r, Some e)))).
Proof.
  split.
  - intros T decode target req s w res Hdo H401.
    rewrite doJSON_run, Hdo. unfold classify. by rewrite H401.
  - intros site p r0 s w res r Hparse Hdo H200 Hdec.
    assert (Hget : get site p r0 s
      = (afterDo (requestOf "GET" (clientsPath site p) NoBody s) w s,
         (r, envelopeError r))).
    { rewrite get_run, getJSON_run, Hparse, Hdo. unfold classify.
      by rewrite H200, Hdec. }
    cbv zeta. split.
    + intros Hcode.
      assert (Herr : envelopeError r = Some errTokenExpired).
      { unfold envelopeError. by rewrite Hcode. }
      rewrite Herr in Hget. split; [done|]. split; [done|].
      rewrite retryOnce_run, Hget. reflexivity.
    + intros Hnz Hne.
      assert (Herr : envelopeError r
                     = Some (errorString
                               (formatInt (ErrorCode r) +:+ ": " +:+ Msg r))).
      { unfold envelopeError.
        destruct (ErrorCode r =? -1200) eqn:E1; [lia|].
        destruct (ErrorCode r =? 0) eqn:E2; [lia|]. done. }
      rewrite Herr in Hget. cbv zeta. split; [done|]. split; [done|].
      rewrite retryOnce_run, Hget. reflexivity.
Qed.

End Requests.

(** The three cases on the scripted controller: a 401, an envelope with
    code -1200, an envelope with code 7. *)
Lemma token_expiry_signals_witness :
  let req := {| Method := "GET"; URL := "https://omada:8043/abc123/x";
                Header := ∅; Cookies := []; ReqBody := NoBody |} in
  snd (doJSON req asClients zeroClientsResult
         (scriptState loggedIn [statusResponse 401 "401 Unauthorized"]))
  = (zeroClientsResult, Some errTokenExpired)
  /\ snd (get "Default" 1 zeroClientsResult
            (scriptState loggedIn
               [okResponse (clientsBody (envelope (-1200) "expired" 0 []))]))
     = (envelope (-1200) "expired" 0 [], Some errTokenExpired)
  /\ snd (get "Default" 1 zeroClientsResult
            (scriptState loggedIn
               [okResponse (clientsBody (envelope 7 "boom" 0 []))]))
     = (envelope 7 "boom" 0 [], Some (errorString "7: boom")).
Proof.
  destruct (@token_expiry_signals scripted) as [H401 Hcode].
  split; [|split].
  - erewrite H401; [reflexivity|reflexivity|reflexivity].
  - edestruct (Hcode "Default" 1 zeroClientsResult
        (scriptState loggedIn
           [okResponse (clientsBody (envelope (-1200) "expired" 0 []))]))
      as [Hexp _]; [reflexivity|reflexivity|reflexivity|reflexivity|].
    destruct Hexp as [Hget _]; [reflexivity|].
    rewrite Hget. reflexivity.
  - edestruct (Hcode "Default" 1 zeroClientsResult
        (scriptState loggedIn
           [okResponse (clientsBody (envelope 7 "boom" 0 []))]))
      as [_ Hother]; [reflexivity|reflexivity|reflexivity|reflexivity|].
    destruct Hother as [Hget _]; [discriminate|discriminate|].
    rewrite Hget. reflexivity.
Defined.

(** ** The session *)

Section Session.
Context `{Net}.

Lemma logCookies_frame (cookies : list Cookie) : forall s,
  let s' := fst (logCookies cookies s) in
  token (client s') = token (client s)
  /\ baseURL (client s') = baseURL (client s)
  /\ configPath (client s') = configPath (client s)
  /\ world s' = world s /\ authLog s' = authLog s
  /\ requests s' = requests s.
Proof.
  induction cookies as [|c cookies IH]; intros s; simpl; [done|].
  unfold_st. unfold logWrite.
  exact (IH (withClient
    (withLogger (logger (client s) ++ [logCookie c]) (client s)) s)).
Qed.

Ltac sent_by_login :=
  simpl; rewrite <- ?app_assoc;
  first
    [ exists []; split; [by rewrite app_nil_r|constructor]
    | eexists; split;
      [reflexivity
      |simpl;
       repeat first
         [ apply Forall_nil_2
         | apply Forall_cons_2;
           [first [apply requestOf_info|apply requestOf_login]|] ] ] ].

(** [authenticate] sends requests of the login only. *)
Lemma authenticate_requests (s : State) :
  exists l, requests (fst (authenticate s)) = requests s ++ l
            /\ Forall loginRequest l.
Proof.
  unfold authenticate, authenticateBody, SetToken, SetBaseURL, Username,
    Password, BaseURL, JarCookies.
  unfold_st. simpl.
  destruct (url_JoinPath (configPath (client s)) "/") as [e|rootPath];
    [sent_by_login|].
  rewrite getJSON_run. simpl.
  destruct (url_ParseErr _) as [e|]; [sent_by_login|].
  destruct (http_Do _ (world s)) as [w1 [e|res1]]; [sent_by_login|].
  unfold classify at 1.
  destruct (StatusCode res1 =? 401); [sent_by_login|].
  destruct (StatusCode res1 =? 200); simpl; [|sent_by_login].
  destruct (asInfo (RespBody res1) zeroInfoResult) as [ir [e|]];
    [sent_by_login|simpl].
  destruct (String.eqb (irControllerID ir) ""); [sent_by_login|simpl].
  destruct (url_JoinPath (configPath (client s)) (irControllerID ir))
    as [e|newPath]; [sent_by_login|simpl].
  rewrite postJSON_run. simpl.
  destruct (url_ParseErr _) as [e|]; [sent_by_login|].
  destruct (http_Do _ w1) as [w2 [e|res2]]; [sent_by_login|].
  unfold classify at 1.
  destruct (StatusCode res2 =? 401); [sent_by_login|].
  destruct (StatusCode res2 =? 200); simpl; [|sent_by_login].
  destruct (asAuth (RespBody res2) zeroAuthResult) as [ar [e|]];
    [sent_by_login|simpl].
  destruct (String.eqb (arToken ar) ""); [sent_by_login|simpl].
  match goal with
  | |- context [logCookies ?cs ?st] =>
      pose proof (logCookies_frame cs st) as Hframe;
      destruct (logCookies cs st) as [s' []]
  end.
  simpl in Hframe. destruct Hframe as (_ & _ & _ & _ & _ & Hr).
  simpl. rewrite Hr. sent_by_login.
Qed.

(** The outcomes of the body of [authenticate]. *)
Lemma authenticateBody_outcome (s : State) :
  let '(s', err) := authenticateBody s in
  (token (client s') <> "" <-> err = None)
  /\ configPath (client s') = configPath (client s)
  /\ authLog s' = authLog s
  /\ (err = None ->
      exists rootPath newPath ir ar w1 res1 res2,
        url_JoinPath (configPath (client s)) "/" = inr rootPath
        /\ http_Do (requestOf "GET" "/api/info" NoBody
                      (sessionOf "" (TrimSuffix rootPath "/") (world s) s))
                   (world s) = (w1, inr res1)
        /\ StatusCode res1 = 200
        /\ asInfo (RespBody res1) zeroInfoResult = (ir, None)
        /\ irControllerID ir <> ""
        /\ url_JoinPath (configPath (client s)) (irControllerID ir)
           = inr newPath
        /\ http_Do (requestOf "POST" "/api/v2/login" (credentials s)
                      (sessionOf "" (TrimSuffix newPath "/") w1 s))
                   w1 = (world s', inr res2)
        /\ StatusCode res2 = 200
        /\ asAuth (RespBody res2) zeroAuthResult = (ar, None)
        /\ arToken ar <> ""
        /\ token (client s') = arToken ar
        /\ baseURL (client s') = TrimSuffix newPath "/").
Proof.
  unfold authenticateBody, SetToken, SetBaseURL, Username, Password,
    BaseURL, JarCookies.
  unfold_st. simpl.
  destruct (url_JoinPath (configPath (client s)) "/") as [e|rootPath] eqn:Er;
    [simpl; repeat split; done|].
  rewrite getJSON_run. simpl.
  destruct (url_ParseErr _) as [e|]; [simpl; repeat split; done|].
  destruct (http_Do _ (world s)) as [w1 [e|res1]] eqn:Edo1;
    [simpl; repeat split; done|].
  unfold classify at 1.
  destruct (StatusCode res1 =? 401) eqn:E401; [simpl; repeat split; done|].
  destruct (StatusCode res1 =? 200) eqn:E200; simpl;
    [|repeat split; done].
  destruct (asInfo (RespBody res1) zeroInfoResult) as [ir [e|]] eqn:Eir;
    [simpl; repeat split; done|simpl].
  destruct (String.eqb (irControllerID ir) "") eqn:Eid;
    [simpl; repeat split; done|simpl].
  destruct (url_JoinPath (configPath (client s)) (irControllerID ir))
    as [e|newPath] eqn:En; [simpl; repeat split; done|simpl].
  rewrite postJSON_run. simpl.
  destruct (url_ParseErr _) as [e|]; [simpl; repeat split; done|].
  destruct (http_Do _ w1) as [w2 [e|res2]] eqn:Edo2;
    [simpl; repeat split; done|].
  unfold classify at 1.
  destruct (StatusCode res2 =? 401) eqn:E401'; [simpl; repeat split; done|].
  destruct (StatusCode res2 =? 200) eqn:E200'; simpl;
    [|repeat split; done].
  destruct (asAuth (RespBody res2) zeroAuthResult) as [ar [e|]] eqn:Ear;
    [simpl; repeat split; done|simpl].
  destruct (String.eqb (arToken ar) "") eqn:Etok;
    [simpl; repeat split; done|simpl].
  apply String.eqb_neq in Eid, Etok. apply Z.eqb_eq in E200, E200'.
  match goal with
  | |- context [logCookies ?cs ?st] =>
      pose proof (logCookies_frame cs st) as Hframe;
      destruct (logCookies cs st) as [s' []]
  end.
  simpl in Hframe. destruct Hframe as (Ht & Hb & Hc & Hw & Ha & _).
  rewrite Ht, Hb, Hc, Ha.
  split; [done|]. split; [done|]. split; [done|]. intros _.
  exists rootPath, newPath, ir, ar, w1, res1, res2.
  rewrite Hw. repeat split; done.
Qed.

Lemma noteAuth_inv (s : State) (err : option error) :
  (token (client s) <> "" <-> err = None) ->
  SessionInv (noteAuth (bool_decide (err = None)) s).
Proof.
  unfold SessionInv, noteAuth. simpl. rewrite last_snoc. intros ->.
  split.
  - intros ->. done.
  - intros [= E]. by apply bool_decide_eq_true_1 in E.
Qed.

Lemma authenticate_inv (s : State) : SessionInv (fst (authenticate s)).
Proof.
  unfold authenticate.
  pose proof (authenticateBody_outcome s) as Hb.
  destruct (authenticateBody s) as [s' err]. simpl.
  apply noteAuth_inv, Hb.
Qed.

Lemma getJSON_frame {T} (url : string)
    (decode : Body -> T -> T * option error) (target : T) (s : State) :
  client (fst (getJSON url decode target s)) = client s
  /\ authLog (fst (getJSON url decode target s)) = authLog s.
Proof.
  rewrite getJSON_run. destruct (url_ParseErr _); [done|].
  by destruct (http_Do _ (world s)).
Qed.

Lemma get_frame (site : string) (p : Z) (r : ClientsResult) (s : State) :
  client (fst (get site p r s)) = client s
  /\ authLog (fst (get site p r s)) = authLog s.
Proof.
  rewrite get_run.
  pose proof (getJSON_frame (clientsPath site p) asClients r s) as Hf.
  by destruct (getJSON _ _ _ s) as [s' [r' [e|]]].
Qed.

Lemma frame_inv (s s' : State) :
  token (client s') = token (client s) -> authLog s' = authLog s ->
  SessionInv s -> SessionInv s'.
Proof. unfold SessionInv. by intros -> ->. Qed.

Lemma get_inv (site : string) (p : Z) (r : ClientsResult) (s : State) :
  SessionInv s -> SessionInv (fst (get site p r s)).
Proof.
  destruct (get_frame site p r s) as [Hc Ha].
  apply frame_inv; [by rewrite Hc|done].
Qed.

Lemma retryOnce_get_inv (site : string) (p : Z) (r : ClientsResult)
    (s : State) :
  SessionInv s -> SessionInv (fst (retryOnce (get site p) r s)).
Proof.
  intros Hs. rewrite retryOnce_run.
  pose proof (get_inv site p r s Hs) as H1.
  destruct (get site p r s) as [s1 [r1 e1]]. simpl in H1.
  destruct (errors_Is e1 errTokenExpired); [|done].
  pose proof (authenticate_inv s1) as H2.
  destruct (authenticate s1) as [s2 [e|]]; [done|].
  by apply get_inv.
Qed.

Lemma pageLoop_inv (site : string) : forall fuel p acc s,
  SessionInv s -> SessionInv (fst (pageLoop fuel site p acc s)).
Proof.
  induction fuel as [|fuel IH]; intros p acc s Hs; simpl;
    destruct (p <=? maxPages); try done.
  unfold_st.
  pose proof (retryOnce_get_inv site p zeroClientsResult s Hs) as H1.
  destruct (retryOnce (get site p) zeroClientsResult s) as [s1 [r [e|]]];
    [done|].
  destruct (_ || _); [done|]. by apply IH.
Qed.

Lemma ConnectedClients_inv (site : string) (s : State) :
  SessionInv s -> SessionInv (fst (ConnectedClients site s)).
Proof.
  intros Hs. rewrite ConnectedClients_run.
  pose proof (pageLoop_inv site (Z.to_nat maxPages) 1 [] s Hs) as H1.
  destruct (pageLoop _ site 1 [] s) as [s' [[cp cl] [e|]]]; [done|].
  simpl in *. by destruct (cp >? maxPages).
Qed.

(** C9. After [authenticate] the token is set exactly when it returned
    no error.  It fails with the token empty; it succeeds only after
    asking [/api/info] under the configured root and [/api/v2/login]
    under the root joined with the controller identity, both without a
    token, and then holds the token of the login answer and that base
    path.  Every request built afterwards carries them, and fetching
    clients keeps the token in step with the latest login. *)
Theorem authenticate_session (s : State) :
  let '(s', err) := authenticate s in
  (token (client s') <> "" <-> err = None)
  /\ (err <> None -> token (client s') = "")
  /\ SessionInv s'
  /\ (err = None ->
      exists rootPath newPath ir ar w1 res1 res2,
        let atRoot := sessionOf "" (TrimSuffix rootPath "/") (world s) s in
        let atController := sessionOf "" (TrimSuffix newPath "/") w1 s in
        url_JoinPath (configPath (client s)) "/" = inr rootPath
        /\ http_Do (requestOf "GET" "/api/info" NoBody atRoot) (world s)
           = (w1, inr res1)
        /\ Header (requestOf "GET" "/api/info" NoBody atRoot) !! "Csrf-Token"
           = Some ""
        /\ URL (requestOf "GET" "/api/info" NoBody atRoot)
           = TrimSuffix rootPath "/" +:+ "/api/info"
        /\ StatusCode res1 = 200
        /\ asInfo (RespBody res1) zeroInfoResult = (ir, None)
        /\ irControllerID ir <> ""
        /\ url_JoinPath (configPath (client s)) (irControllerID ir)
           = inr newPath
        /\ http_Do (requestOf "POST" "/api/v2/login" (credentials s)
                      atController) w1
           = (world s', inr res2)
        /\ Header (requestOf "POST" "/api/v2/login" (credentials s)
                      atController) !! "Csrf-Token" = Some ""
        /\ URL (requestOf "POST" "/api/v2/login" (credentials s)
                   atController)
           = TrimSuffix newPath "/" +:+ "/api/v2/login"
        /\ StatusCode res2 = 200
        /\ asAuth (RespBody res2) zeroAuthResult = (ar, None)
        /\ arToken ar <> ""
        /\ token (client s') = arToken ar
        /\ baseURL (client s') = TrimSuffix newPath "/")
  /\ (forall method url body,
        URL (requestOf method url body s') = baseURL (client s') +:+ url
        /\ Header (requestOf method url body s') !! "Csrf-Token"
           = Some (token (client s')))
  /\ (forall T url (decode : Body -> T -> T * option error) target,
        url_ParseErr (baseURL (client s') +:+ url) = None ->
        requests (fst (getJSON url decode target s'))
        = requests s' ++ [requestOf "GET" url NoBody s'])
  /\ (forall site, SessionInv (fst (ConnectedClients site s'))).
Proof.
  pose proof (authenticate_inv s) as Hinv.
  unfold authenticate in *.
  pose proof (authenticateBody_outcome s) as Hb.
  destruct (authenticateBody s) as [s' err].
  destruct Hb as (Hiff & _ & _ & Hok). simpl in Hinv. simpl.
  split; [done|]. split.
  { intros Hne. destruct (decide (token (client s') = "")) as [|Ht]; [done|].
    by apply Hiff in Ht. }
  split; [done|]. split.
  { intros E.
    destruct (Hok E) as (rootPath & newPath & ir & ar & w1 & res1 & res2
      & H1 & H2 & H3 & H4 & H5 & H6 & H7 & H8 & H9 & H10 & H11 & H12).
    exists rootPath, newPath, ir, ar, w1, res1, res2. cbv zeta.
    pose proof (requestOf_session "GET" "/api/info" NoBody
      (sessionOf "" (TrimSuffix rootPath "/") (world s) s)) as (Hu1 & Hh1 & _).
    pose proof (requestOf_session "POST" "/api/v2/login" (credentials s)
      (sessionOf "" (TrimSuffix newPath "/") w1 s)) as (Hu2 & Hh2 & _).
    repeat split; done. }
  split.
  { intros method url body.
    pose proof (requestOf_session method url body (noteAuth
      (bool_decide (err = None)) s')) as (Hu & Hh & _). done. }
  split.
  { intros T url decode target Hp.
    exact (getJSON_sends url decode target
             (noteAuth (bool_decide (err = None)) s') Hp). }
  intros site. by apply ConnectedClients_inv.
Qed.

(** A client handed out by [NewClient] holds a token. *)
Lemma NewClient_token (path user pass : string) (w : World) (s : State) :
  NewClient path user pass w = (s, None) -> token (client s) <> "".
Proof.
  unfold NewClient, authenticate. intros E.
  match type of E with context [authenticateBody ?s0] =>
    pose proof (authenticateBody_outcome s0) as Hs;
    destruct (authenticateBody s0) as [s' err]
  end.
  injection E as <- ->. simpl. destruct Hs as (Hiff & _). by apply Hiff.
Qed.

End Session.

(** The login of the scenario: identity [abc123], token [T1]. *)
Lemma authenticate_session_witness :
  let s := scriptState (newClient "https://omada:8043/" "admin" "secret")
             [okResponse (infoBody "abc123"); okResponse (loginBody "T1")] in
  snd (authenticate s) = None
  /\ token (client (fst (authenticate s))) <> ""
  /\ SessionInv (fst (authenticate s))
  /\ token (client (fst (authenticate s))) = "T1"
  /\ baseURL (client (fst (authenticate s))) = "https://omada:8043/abc123"
  /\ map URL (sent (world (fst (authenticate s))))
     = ["https://omada:8043/api/info";
        "https://omada:8043/abc123/api/v2/login"].
Proof.
  intros s.
  assert (Hrun : authenticate s = (fst (authenticate s), None))
    by (vm_compute; reflexivity).
  generalize (authenticate_session s). rewrite Hrun.
  intros (Hiff & _ & Hinv & _).
  split; [reflexivity|]. split; [by apply Hiff|]. split; [exact Hinv|].
  repeat split; vm_compute; reflexivity.
Defined.

(** ** Pagination *)

Section Pagination.
Context `{Net}.

Implicit Types (acc : list (option ConnectedClient))
  (rs : list ClientsResult).

Lemma allData_cons r rs : allData (r :: rs) = Data (Result r) ++ allData rs.
Proof. reflexivity. Qed.

Lemma allData_app rs1 rs2 : allData (rs1 ++ rs2) = allData rs1 ++ allData rs2.
Proof. unfold allData. by rewrite map_app, concat_app. Qed.

Lemma emptyPage_length r :
  (Z.of_nat (length (Data (Result r))) =? 0) = emptyPage r.
Proof. unfold emptyPage. by destruct (Data (Result r)). Qed.

Lemma emptyPage_nil r : emptyPage r = true -> Data (Result r) = [].
Proof. unfold emptyPage. by destruct (Data (Result r)). Qed.

(** One more unit of fuel than iterations left is never needed. *)
Lemma pageLoop_fuel site : forall fuel1 fuel2 p acc s,
  (Z.to_nat (maxPages + 1 - p) <= fuel1)%nat ->
  (Z.to_nat (maxPages + 1 - p) <= fuel2)%nat ->
  pageLoop fuel1 site p acc s = pageLoop fuel2 site p acc s.
Proof.
  induction fuel1 as [|fuel1 IH]; intros fuel2 p acc s H1 H2.
  - destruct fuel2; simpl; destruct (p <=? maxPages) eqn:E; try done.
    apply Z.leb_le in E. lia.
  - destruct fuel2; simpl; destruct (p <=? maxPages) eqn:E; try done.
    { apply Z.leb_le in E. lia. }
    unfold_st.
    destruct (retryOnce (get site p) zeroClientsResult s) as [s1 [r [e|]]];
      [done|].
    destruct (_ || _); [done|].
    apply Z.leb_le in E. apply IH; lia.
Qed.

Lemma fetchPages_cons site n p s s' rs :
  fetchPages (S n) site p s = (s', Some rs) ->
  exists s1 r rest,
    retryOnce (get site p) zeroClientsResult s = (s1, (r, None))
    /\ fetchPages n site (p + 1) s1 = (s', Some rest)
    /\ rs = r :: rest.
Proof.
  simpl. unfold_st.
  destruct (retryOnce (get site p) zeroClientsResult s) as [s1 [r [e|]]];
    [done|].
  destruct (fetchPages n site (p + 1) s1) as [s2 [rest|]] eqn:E; [|done].
  intros [= <- <-]. by exists s1, r, rest.
Qed.

Lemma fetchPages_length site : forall n p s s' rs,
  fetchPages n site p s = (s', Some rs) -> length rs = n.
Proof.
  induction n as [|n IH]; intros p s s' rs Hf.
  - by injection Hf as <- <-.
  - apply fetchPages_cons in Hf as (s1 & r & rest & _ & Hrest & ->).
    simpl. f_equal. by eapply IH.
Qed.

Lemma fetchPages_prefix site : forall n j p s s' rs,
  fetchPages n site p s = (s', Some rs) -> (j <= n)%nat ->
  exists sj, fetchPages j site p s = (sj, Some (take j rs)).
Proof.
  induction n as [|n IH]; intros j p s s' rs Hf Hj.
  - assert (j = 0%nat) as -> by lia. by exists s.
  - destruct j as [|j]; [by exists s|].
    apply fetchPages_cons in Hf as (s1 & r & rest & Hr & Hrest & ->).
    destruct (IH j (p + 1) s1 s' rest Hrest) as [sj Hsj]; [lia|].
    exists sj. simpl. unfold_st. by rewrite Hr, Hsj.
Qed.

(** [get] sends at most the request of its page, and sends it when it
    succeeds. *)
Lemma get_requests (site : string) (p : Z) (r : ClientsResult) (s : State) :
  exists l, requests (fst (get site p r s)) = requests s ++ l
            /\ Forall (pageRequest site p) l
            /\ (snd (snd (get site p r s)) = None -> l <> []).
Proof.
  rewrite get_run, getJSON_run.
  destruct (url_ParseErr _) as [e|].
  - exists []. simpl. by rewrite app_nil_r.
  - exists [requestOf "GET" (clientsPath site p) NoBody s].
    destruct (http_Do _ (world s)) as [w res].
    destruct (classify _ asClients r res) as [r' [e|]]; simpl;
      (split; [done|]); (split; [|done]);
      apply Forall_cons; (split; [apply requestOf_page|constructor]).
Qed.

Lemma pagesAsked_app (site : string) (lo hi : Z) (l1 l2 : list Request) :
  pagesAsked site lo hi l1 -> pagesAsked site lo hi l2 ->
  pagesAsked site lo hi (l1 ++ l2).
Proof. unfold pagesAsked. intros. by apply Forall_app. Qed.

Lemma pagesAsked_weaken (site : string) (lo hi lo' hi' : Z)
    (l : list Request) :
  lo' <= lo -> hi <= hi' ->
  pagesAsked site lo hi l -> pagesAsked site lo' hi' l.
Proof.
  unfold pagesAsked. intros Hlo Hhi Hl. eapply Forall_impl; [exact Hl|].
  intros req [?|(q & Hq & ?)]; [by left|]. right. exists q. split; [lia|done].
Qed.

Lemma pagesAsked_login (site : string) (lo hi : Z) (l : list Request) :
  Forall loginRequest l -> pagesAsked site lo hi l.
Proof.
  unfold pagesAsked. intros Hl. eapply Forall_impl; [exact Hl|].
  intros req ?. by left.
Qed.

Lemma pagesAsked_page (site : string) (p : Z) (l : list Request) :
  Forall (pageRequest site p) l -> pagesAsked site p p l.
Proof.
  unfold pagesAsked. intros Hl. eapply Forall_impl; [exact Hl|].
  intros req ?. right. exists p. split; [lia|done].
Qed.

(** A page fetch sends requests of its page and of logins, and at least
    one when it succeeds. *)
Lemma fetch_requests (site : string) (p : Z) (r : ClientsResult) (s : State) :
  exists l, requests (fst (retryOnce (get site p) r s)) = requests s ++ l
            /\ pagesAsked site p p l
            /\ (snd (snd (retryOnce (get site p) r s)) = None -> l <> []).
Proof.
  rewrite retryOnce_run.
  destruct (get_requests site p r s) as (l1 & Hl1 & Hp1 & Hn1).
  destruct (get site p r s) as [s1 [r1 e1]]. simpl in Hl1, Hn1.
  destruct (errors_Is e1 errTokenExpired).
  - destruct (authenticate_requests s1) as (l2 & Hl2 & Hp2).
    destruct (authenticate s1) as [s2 [e|]]; simpl in Hl2.
    + exists (l1 ++ l2). simpl. rewrite Hl2, Hl1, app_assoc.
      split; [done|]. split; [|done].
      apply pagesAsked_app;
        [by apply pagesAsked_page|by apply pagesAsked_login].
    + destruct (get_requests site p r1 s2) as (l3 & Hl3 & Hp3 & Hn3).
      exists (l1 ++ l2 ++ l3). rewrite Hl3, Hl2, Hl1, !app_assoc.
      split; [done|]. split.
      * repeat apply pagesAsked_app;
          [by apply pagesAsked_page|by apply pagesAsked_login
          |by apply pagesAsked_page].
      * intros Hok. specialize (Hn3 Hok).
        destruct l3; [done|]. by destruct l1, l2.
  - exists l1. simpl. split; [done|]. split; [by apply pagesAsked_page|done].
Qed.

Lemma fetchPages_requests (site : string) : forall n p s s' rs,
  fetchPages n site p s = (s', Some rs) ->
  exists l, requests s' = requests s ++ l
            /\ pagesAsked site p (p + Z.of_nat n - 1) l
            /\ (n <= length l)%nat.
Proof.
  induction n as [|n IH]; intros p s s' rs Hf.
  - injection Hf as <- _. exists []. rewrite app_nil_r.
    split; [done|]. split; [constructor|simpl; lia].
  - apply fetchPages_cons in Hf as (s1 & r & rest & Hr & Hrest & _).
    destruct (fetch_requests site p zeroClientsResult s) as (l1 & Hl1 & Hp1 & Hn1).
    rewrite Hr in Hl1, Hn1. simpl in Hl1, Hn1.
    destruct (IH _ _ _ _ Hrest) as (l2 & Hl2 & Hp2 & Hn2).
    exists (l1 ++ l2). rewrite Hl2, Hl1, app_assoc. split; [done|]. split.
    + apply pagesAsked_app.
      * apply (pagesAsked_weaken site p p); [lia|lia|done].
      * apply (pagesAsked_weaken site (p + 1) (p + 1 + Z.of_nat n - 1));
          [lia|lia|done].
    + rewrite length_app. destruct l1; [by specialize (Hn1 eq_refl)|].
      simpl. lia.
Qed.
Lemma breakPage_bound : forall rs acc j,
  breakPage acc rs = Some j -> (1 <= j <= length rs)%nat.
Proof.
  induction rs as [|r rs IH]; intros acc j; simpl; [done|].
  destruct (_ || _).
  - intros [= <-]. lia.
  - destruct (breakPage _ rs) as [k|] eqn:E; [|done].
    intros [= <-]. apply IH in E. lia.
Qed.

Lemma breakPage_take : forall rs acc j,
  breakPage acc rs = Some j -> breakPage acc (take j rs) = Some j.
Proof.
  induction rs as [|r rs IH]; intros acc j; simpl; [done|].
  destruct (_ || _) eqn:E.
  - intros [= <-]. simpl. by rewrite E.
  - destruct (breakPage _ rs) as [k|] eqn:Ek; [|done].
    intros [= <-]. simpl. rewrite E. by rewrite (IH _ _ Ek).
Qed.

(** A break page is the first page that stops the loop. *)
Lemma breakPage_first : forall rs acc j,
  breakPage acc rs = Some j ->
  noStop acc (take (j - 1) rs) = true
  /\ exists r, rs !! (j - 1)%nat = Some r
       /\ reachesTotal (acc ++ allData (take (j - 1) rs)) r || emptyPage r
          = true.
Proof.
  induction rs as [|r rs IH]; intros acc j; simpl; [done|].
  destruct (_ || _) eqn:E.
  - intros [= <-]. simpl. split; [done|]. exists r.
    unfold allData; simpl. by rewrite app_nil_r.
  - destruct (breakPage _ rs) as [k|] eqn:Ek; [|done].
    intros [= <-]. pose proof (breakPage_bound _ _ _ Ek) as Hk.
    destruct (IH _ _ Ek) as (Hno & r' & Hr' & Hstop).
    replace (S k - 1)%nat with (S (k - 1)) by lia. simpl.
    apply orb_false_iff in E as [-> ->]. simpl. split; [done|].
    exists r'. split; [done|]. by rewrite allData_cons, app_assoc.
Qed.

Lemma breakPage_last : forall rs acc r,
  noStop acc rs = true ->
  reachesTotal (acc ++ allData rs) r || emptyPage r = true ->
  breakPage acc (rs ++ [r]) = Some (length rs + 1)%nat.
Proof.
  induction rs as [|r0 rs IH]; intros acc r Hno Hstop; simpl in *.
  - unfold allData in Hstop; simpl in Hstop. rewrite app_nil_r in Hstop.
    by rewrite Hstop.
  - apply andb_true_iff in Hno as [Hno Hrest].
    apply andb_true_iff in Hno as [Hr He].
    apply negb_true_iff in Hr, He. rewrite Hr, He. simpl.
    rewrite (IH (acc ++ Data (Result r0)) r Hrest); [done|].
    by rewrite <- app_assoc.
Qed.

(** Once a page reaches its declared total, some page breaks the loop. *)
Lemma breakPage_reached : forall rs acc r,
  reachesTotal (acc ++ allData rs) r = true ->
  exists j, breakPage acc (rs ++ [r]) = Some j.
Proof.
  induction rs as [|r0 rs IH]; intros acc r Hstop; simpl in *.
  - unfold allData in Hstop; simpl in Hstop. rewrite app_nil_r in Hstop.
    rewrite Hstop. by exists 1%nat.
  - destruct (_ || _); [by exists 1%nat|].
    destruct (IH (acc ++ Data (Result r0)) r) as [j ->];
      [by rewrite <- app_assoc|].
    by exists (S j).
Qed.

(** The loop stops at the break page, with the records of the pages up to
    it, in the state the last fetch left. *)
Lemma pageLoop_break site : forall rs p acc fuel s s',
  fetchPages (length rs) site p s = (s', Some rs) ->
  breakPage acc rs = Some (length rs) ->
  p + Z.of_nat (length rs) - 1 <= maxPages ->
  (length rs <= fuel)%nat ->
  pageLoop fuel site p acc s
  = (s', (p + Z.of_nat (length rs) - 1, acc ++ allData rs, None)).
Proof.
  induction rs as [|r rs IH]; intros p acc fuel s s' Hf Hb Hp Hfuel;
    [done|].
  simpl length in *.
  apply fetchPages_cons in Hf as (s1 & r' & rest & Hr & Hrest & Heq).
  injection Heq as <- <-.
  destruct fuel as [|fuel]; [lia|]. simpl pageLoop.
  assert ((p <=? maxPages) = true) as -> by (apply Z.leb_le; lia).
  unfold_st. rewrite Hr. rewrite emptyPage_length.
  fold (reachesTotal acc r).
  simpl in Hb. destruct (reachesTotal acc r || emptyPage r) eqn:E.
  - injection Hb as Hlen. destruct rs; [|done].
    simpl in Hrest. injection Hrest as <-.
    unfold allData; simpl. rewrite app_nil_r. f_equal. f_equal. f_equal. lia.
  - destruct (breakPage _ rs) as [k|] eqn:Ek; [|done].
    injection Hb as ->.
    rewrite (IH (p + 1) (acc ++ Data (Result r)) fuel s1 s');
      [|done|done|lia|lia].
    rewrite allData_cons, app_assoc. f_equal. f_equal. f_equal. lia.
Qed.

(** With no page stopping it, the loop runs out of pages. *)
Lemma pageLoop_exhaust site : forall rs p acc fuel s s',
  fetchPages (length rs) site p s = (s', Some rs) ->
  noStop acc rs = true ->
  p + Z.of_nat (length rs) = maxPages + 1 ->
  (length rs <= fuel)%nat ->
  pageLoop fuel site p acc s = (s', (maxPages + 1, acc ++ allData rs, None)).
Proof.
  induction rs as [|r rs IH]; intros p acc fuel s s' Hf Hno Hp Hfuel.
  - simpl in *. injection Hf as <-.
    assert (p = maxPages + 1) as -> by lia.
    unfold allData; simpl. rewrite app_nil_r. by destruct fuel.
  - simpl length in *.
    apply fetchPages_cons in Hf as (s1 & r' & rest & Hr & Hrest & Heq).
    injection Heq as <- <-.
    destruct fuel as [|fuel]; [lia|]. simpl pageLoop.
    assert ((p <=? maxPages) = true) as -> by (apply Z.leb_le; lia).
    unfold_st. rewrite Hr. rewrite emptyPage_length.
    fold (reachesTotal acc r).
    simpl in Hno. apply andb_true_iff in Hno as [Hno Hrs].
    apply andb_true_iff in Hno as [Hr1 Hr2].
    apply negb_true_iff in Hr1, Hr2. rewrite Hr1, Hr2. simpl.
    rewrite (IH (p + 1) (acc ++ Data (Result r)) fuel s1 s');
      [|done|done|lia|lia].
    by rewrite allData_cons, app_assoc.
Qed.

(** What the last statement returns: for records, the first record of
    each MAC; with a nil pointer among them, nothing. *)
Lemma returnDeduped_records (recs : list ConnectedClient) :
  exists kept,
    returnDeduped (map Some recs) = Returns (Some (map Some kept), None)
    /\ kept = firstOccurrences [] recs
    /\ NoDup (map MAC kept)
    /\ (forall m, m ∈ map MAC kept <-> m ∈ map MAC recs)
    /\ sublist kept recs.
Proof.
  exists (firstOccurrences [] recs). unfold returnDeduped.
  rewrite dedupeClients_spec. split; [done|]. split; [done|].
  split; [apply firstOccurrences_NoDup|]. split.
  - intros m. rewrite firstOccurrences_keys. simpl. rewrite elem_of_nil.
    tauto.
  - apply firstOccurrences_sublist.
Qed.

Lemma returnDeduped_nil (ptrs : list (option ConnectedClient)) :
  None ∈ ptrs -> returnDeduped ptrs = Panics.
Proof.
  intros Hin. unfold returnDeduped, dedupeClients.
  by rewrite (dedupeLoop_nil ptrs _ Hin).
Qed.

Lemma ConnectedClients_break site s s' rs :
  fetchPages (length rs) site 1 s = (s', Some rs) ->
  breakPage [] rs = Some (length rs) ->
  (length rs <= 10)%nat ->
  ConnectedClients site s = (s', returnDeduped (allData rs)).
Proof.
  intros Hf Hb Hlen.
  pose proof (breakPage_bound _ _ _ Hb) as Hpos.
  rewrite ConnectedClients_run.
  rewrite (pageLoop_break site rs 1 [] _ s s' Hf Hb);
    [|unfold maxPages; lia|unfold maxPages; lia].
  simpl.
  assert ((1 + Z.of_nat (length rs) - 1 >? maxPages) = false) as ->; [|done].
  unfold maxPages. rewrite Z.gtb_ltb. apply Z.ltb_ge. lia.
Qed.

(** C3. When the pages the controller serves bring the accumulated count
    to the declared total within ten pages, [ConnectedClients] stops at
    the first page [j] that reaches its total (or is empty), returns the
    records of the pages [1..j], de-duplicated by MAC, with no error, and
    leaves the state as the fetch of page [j] left it: what it sent are
    requests of logins and of the pages [1..j].  (Had a page a [null]
    among its records, [dedupeClients] would panic.) *)
Theorem ConnectedClients_reaches_total (site : string) (s s' : State)
    (n : nat) (rs0 : list ClientsResult) (r : ClientsResult) :
  fetchPages n site 1 s = (s', Some (rs0 ++ [r])) ->
  (n <= 10)%nat ->
  reachesTotal (allData rs0) r = true ->
  exists j sj,
    breakPage [] (rs0 ++ [r]) = Some j
    /\ (1 <= j <= n)%nat
    /\ noStop [] (take (j - 1) (rs0 ++ [r])) = true
    /\ fetchPages j site 1 s = (sj, Some (take j (rs0 ++ [r])))
    /\ ConnectedClients site s
       = (sj, returnDeduped (allData (take j (rs0 ++ [r]))))
    /\ (forall recs,
          allData (take j (rs0 ++ [r])) = map Some recs ->
          exists kept,
            ConnectedClients site s
            = (sj, Returns (Some (map Some kept), None))
            /\ kept = firstOccurrences [] recs
            /\ NoDup (map MAC kept)
            /\ (forall m, m ∈ map MAC kept <-> m ∈ map MAC recs)
            /\ sublist kept recs)
    /\ (None ∈ allData (take j (rs0 ++ [r])) ->
          ConnectedClients site s = (sj, Panics))
    /\ exists l, requests sj = requests s ++ l
                 /\ pagesAsked site 1 (Z.of_nat j) l.
Proof.
  intros Hf Hn Hreach.
  pose proof (fetchPages_length _ _ _ _ _ _ Hf) as Hlen.
  destruct (breakPage_reached rs0 [] r Hreach) as [j Hj].
  pose proof (breakPage_bound _ _ _ Hj) as Hjb.
  destruct (fetchPages_prefix site n j 1 s s' _ Hf) as [sj Hsj]; [lia|].
  exists j, sj. split; [done|]. split; [lia|].
  split; [apply (breakPage_first _ _ _ Hj)|]. split; [done|].
  assert (Hlj : length (take j (rs0 ++ [r])) = j)
    by (rewrite length_take; lia).
  assert (Hcc : ConnectedClients site s
                = (sj, returnDeduped (allData (take j (rs0 ++ [r]))))).
  { apply ConnectedClients_break.
    - by rewrite Hlj.
    - rewrite Hlj. by apply breakPage_take.
    - lia. }
  split; [exact Hcc|]. split; [|split].
  - intros recs Hrecs. rewrite Hcc, Hrecs.
    destruct (returnDeduped_records recs) as (kept & -> & Hk).
    by exists kept.
  - intros Hnil. by rewrite Hcc, returnDeduped_nil.
  - destruct (fetchPages_requests site _ _ _ _ _ Hsj) as (l & Hl & Hp & _).
    exists l. split; [done|].
    apply (pagesAsked_weaken site 1 (1 + Z.of_nat j - 1)); [lia|lia|done].
Qed.

(** C5. When a page comes back empty and no earlier page has stopped the
    loop, [ConnectedClients] stops at that page, having asked for no
    later page, and returns the records accumulated so far, de-duplicated
    by MAC, with no error.  (With a [null] among the records,
    [dedupeClients] panics.) *)
Theorem ConnectedClients_empty_page (site : string) (s s' : State)
    (rs0 : list ClientsResult) (r : ClientsResult) :
  fetchPages (length rs0 + 1) site 1 s = (s', Some (rs0 ++ [r])) ->
  (length rs0 + 1 <= 10)%nat ->
  noStop [] rs0 = true ->
  emptyPage r = true ->
  ConnectedClients site s = (s', returnDeduped (allData rs0))
  /\ (forall recs,
        allData rs0 = map Some recs ->
        exists kept,
          ConnectedClients site s = (s', Returns (Some (map Some kept), None))
          /\ kept = firstOccurrences [] recs
          /\ NoDup (map MAC kept)
          /\ (forall m, m ∈ map MAC kept <-> m ∈ map MAC recs)
          /\ sublist kept recs)
  /\ (None ∈ allData rs0 -> ConnectedClients site s = (s', Panics))
  /\ exists l, requests s' = requests s ++ l
               /\ pagesAsked site 1 (Z.of_nat (length rs0 + 1)) l.
Proof.
  intros Hf Hlen Hno Hempty.
  assert (Hl : length (rs0 ++ [r]) = (length rs0 + 1)%nat)
    by (rewrite length_app; simpl; lia).
  assert (Hcc : ConnectedClients site s = (s', returnDeduped (allData rs0))).
  { rewrite (ConnectedClients_break site s s' (rs0 ++ [r])).
    - rewrite allData_app. unfold allData at 2. simpl.
      by rewrite (emptyPage_nil _ Hempty), !app_nil_r.
    - by rewrite Hl.
    - rewrite Hl. apply breakPage_last; [done|].
      rewrite Hempty. apply orb_true_r.
    - lia. }
  split; [exact Hcc|]. split; [|split].
  - intros recs Hrecs. rewrite Hcc, Hrecs.
    destruct (returnDeduped_records recs) as (kept & -> & Hk).
    by exists kept.
  - intros Hnil. by rewrite Hcc, returnDeduped_nil.
  - destruct (fetchPages_requests site _ _ _ _ _ Hf) as (l & Hreq & Hp & _).
    exists l. split; [done|].
    apply (pagesAsked_weaken site 1 (1 + Z.of_nat (length rs0 + 1) - 1));
      [lia|lia|done].
Qed.

(** C4. When none of the ten pages reaches its declared total or is
    empty, [ConnectedClients] fetches the pages [1..10] and no more,
    writes the warning with the number of pages and of accumulated
    records, and returns the accumulated records, de-duplicated by MAC,
    with no error.  (With a [null] among the records, [dedupeClients]
    panics, after the warning.) *)
Theorem ConnectedClients_safety_limit (site : string) (s s' : State)
    (rs : list ClientsResult) :
  fetchPages (Z.to_nat maxPages) site 1 s = (s', Some rs) ->
  noStop [] rs = true ->
  let '(s1, out) := ConnectedClients site s in
  out = returnDeduped (allData rs)
  /\ (forall recs,
        allData rs = map Some recs ->
        exists kept,
          out = Returns (Some (map Some kept), None)
          /\ kept = firstOccurrences [] recs
          /\ NoDup (map MAC kept)
          /\ (forall m, m ∈ map MAC kept <-> m ∈ map MAC recs)
          /\ sublist kept recs)
  /\ (None ∈ allData rs -> out = Panics)
  /\ length rs = 10%nat
  /\ world s1 = world s'
  /\ logger (client s1) = logger (client s') ++ [tooManyPages (allData rs)]
  /\ s1 = fst (logWrite (tooManyPages (allData rs)) s')
  /\ exists l, requests s1 = requests s ++ l
               /\ pagesAsked site 1 maxPages l /\ (10 <= length l)%nat.
Proof.
  intros Hf Hno.
  pose proof (fetchPages_length _ _ _ _ _ _ Hf) as Hlen.
  destruct (fetchPages_requests site _ _ _ _ _ Hf) as (l & Hreq & Hp & Hn).
  rewrite ConnectedClients_run.
  rewrite (pageLoop_exhaust site rs 1 [] _ s s');
    [|by rewrite Hlen|done|rewrite Hlen; unfold maxPages; lia|lia].
  change (maxPages + 1 >? maxPages) with true. cbv iota beta.
  change ([] ++ allData rs) with (allData rs).
  split; [done|]. split; [|split].
  - intros recs ->.
    destruct (returnDeduped_records recs) as (kept & -> & Hk).
    by exists kept.
  - apply returnDeduped_nil.
  - do 4 (split; [done|]).
    exists l. simpl. split; [done|]. split; [done|exact Hn].
Qed.

(** C10. When [ConnectedClients] returns an error the slice it returns
    is nil, whatever was accumulated. *)
Theorem ConnectedClients_error_nil (site : string) (s s' : State)
    (clients : option (list (option ConnectedClient))) (e : error) :
  ConnectedClients site s = (s', Returns (clients, Some e)) -> clients = None.
Proof.
  rewrite ConnectedClients_run.
  destruct (pageLoop _ site 1 [] s) as [s1 [[cp cl] [e'|]]].
  - by intros [= _ <- _].
  - unfold returnDeduped. by destruct (dedupeClients cl).
Qed.

End Pagination.

(** The scenario of two pages: the second fetch reaches the total, the
    third answer of the script is never asked for, and the repeated MAC
    is dropped. *)
Lemma ConnectedClients_reaches_total_witness :
  snd (fetchPages 2 "Default" 1 twoPages) = Some ([firstPage] ++ [secondPage])
  /\ reachesTotal (allData [firstPage]) secondPage = true
  /\ length (allData [firstPage; secondPage]) = 101%nat
  /\ snd (ConnectedClients "Default" twoPages)
     = Returns (Some (map Some (clientsFrom 0 100)), None)
  /\ length (pending (world (fst (ConnectedClients "Default" twoPages))))
     = 1%nat.
Proof.
  assert (Hf : fetchPages 2 "Default" 1 twoPages
               = (fst (fetchPages 2 "Default" 1 twoPages),
                  Some ([firstPage] ++ [secondPage])))
    by (vm_compute; reflexivity).
  assert (Hr : reachesTotal (allData [firstPage]) secondPage = true)
    by (vm_compute; reflexivity).
  split; [by rewrite Hf|]. split; [exact Hr|].
  destruct (ConnectedClients_reaches_total "Default" twoPages _ 2
              [firstPage] secondPage Hf)
    as (j & sj & Hb & _ & _ & Hfj & Hcc & _);
    [lia|exact Hr|].
  vm_compute in Hb. injection Hb as <-.
  rewrite Hcc. rewrite Hf in Hfj. injection Hfj as <-.
  split; [reflexivity|]. split; vm_compute; reflexivity.
Defined.

(** The first page repeats a MAC, the second is empty: two records come
    back, and the third answer of the script is never asked for. *)
Lemma ConnectedClients_empty_page_witness :
  snd (fetchPages 2 "Default" 1 emptySecondPage)
  = Some ([repeatedOfTen] ++ [noneOfTen])
  /\ noStop [] [repeatedOfTen] = true
  /\ emptyPage noneOfTen = true
  /\ snd (ConnectedClients "Default" emptySecondPage)
     = Returns (Some [Some (clientOf "aa" "h1"); Some (clientOf "bb" "h2")],
                None)
  /\ length (pending (world (fst (ConnectedClients "Default" emptySecondPage))))
     = 1%nat.
Proof.
  assert (Hf : fetchPages (length [repeatedOfTen] + 1) "Default" 1
                 emptySecondPage
               = (fst (fetchPages 2 "Default" 1 emptySecondPage),
                  Some ([repeatedOfTen] ++ [noneOfTen])))
    by (vm_compute; reflexivity).
  split; [exact (f_equal snd Hf)|]. split; [reflexivity|].
  split; [reflexivity|].
  destruct (ConnectedClients_empty_page "Default" emptySecondPage _
              [repeatedOfTen] noneOfTen Hf) as (_ & Hrecs & _);
    [simpl; lia|reflexivity|reflexivity|].
  destruct (Hrecs [clientOf "aa" "h1"; clientOf "bb" "h2"; clientOf "aa" "h3"]
              eq_refl) as (kept & -> & -> & _).
  split; vm_compute; reflexivity.
Defined.

(** Ten pages of one record each with three MACs between them: the
    warning counts the ten accumulated records, three come back. *)
Lemma ConnectedClients_safety_limit_witness :
  snd (fetchPages 10 "Default" 1 endlessPages)
  = Some (map shortPage (seq 0 10))
  /\ noStop [] (map shortPage (seq 0 10)) = true
  /\ length (allData (map shortPage (seq 0 10))) = 10%nat
  /\ snd (ConnectedClients "Default" endlessPages)
     = Returns (Some (map Some (clientsFrom 0 3)), None)
  /\ logger (client (fst (ConnectedClients "Default" endlessPages)))
     = [{| level := WarnLevel;
           message := "stopped fetching clients after too many pages";
           fields := [zapInt "pages" 10; zapInt "clients" 10] |}]
  /\ length (pending (world (fst (ConnectedClients "Default" endlessPages))))
     = 2%nat.
Proof.
  assert (Hf : fetchPages (Z.to_nat maxPages) "Default" 1 endlessPages
               = (fst (fetchPages 10 "Default" 1 endlessPages),
                  Some (map shortPage (seq 0 10))))
    by (vm_compute; reflexivity).
  assert (Hno : noStop [] (map shortPage (seq 0 10)) = true)
    by (vm_compute; reflexivity).
  split; [exact (f_equal snd Hf)|]. split; [exact Hno|].
  split; [reflexivity|].
  generalize (ConnectedClients_safety_limit "Default" endlessPages _ _ Hf Hno).
  destruct (ConnectedClients "Default" endlessPages) as [s1 out].
  intros (_ & Hrecs & _ & _ & Hw & Hl & _ & _). simpl fst. simpl snd.
  destruct (Hrecs (map (fun i => clientOf (macOf (i mod 3)) "host")
                     (seq 0 10)) eq_refl) as (kept & -> & -> & _).
  rewrite Hw, Hl.
  repeat split; vm_compute; reflexivity.
Defined.

(** The first page is fetched, the second fails: the error comes back
    with a nil slice. *)
Lemma ConnectedClients_error_nil_witness :
  length (allData [threeOfTen]) = 3%nat
  /\ snd (ConnectedClients "Default" failingSecondPage)
     = Returns
         (None,
          Some (errorString
            (Quote "https://omada:8043/abc123/api/v2/sites/Default/clients?currentPage=2&currentPageSize=100&filters.active=true"
             +:+ " returned " +:+ Quote "500 Internal Server Error"))).
Proof.
  split; [reflexivity|].
  assert (Hrun : exists clients,
    ConnectedClients "Default" failingSecondPage
    = (fst (ConnectedClients "Default" failingSecondPage),
       Returns
         (clients,
          Some (errorString
            (Quote "https://omada:8043/abc123/api/v2/sites/Default/clients?currentPage=2&currentPageSize=100&filters.active=true"
             +:+ " returned " +:+ Quote "500 Internal Server Error")))))
    by (eexists; vm_compute; reflexivity).
  destruct Hrun as [clients Hrun].
  rewrite Hrun. simpl snd.
  by rewrite (ConnectedClients_error_nil _ _ _ _ _ Hrun).
Defined.

(** ** Scenarios *)

(** The first clients call is answered with code -1200: the client logs
    in again, repeats the call with the new token, and the caller sees
    the records and no error. *)
Example expiry_is_not_observed :
  let s := scriptState loggedIn
             [okResponse (clientsBody (envelope (-1200) "expired" 0 []));
              okResponse (infoBody "abc123"); okResponse (loginBody "T1");
              okResponse (clientsBody (envelope 0 "" 2 (clientsFrom 0 2)))] in
  let '(s', out) := ConnectedClients "Default" s in
  out = Returns (Some (map Some (clientsFrom 0 2)), None)
  /\ map (fun r => Header r !! "Csrf-Token") (sent (world s'))
     = [Some "T0"; Some ""; Some ""; Some "T1"]
  /\ token (client s') = "T1"
  /\ authLog s' = [true].
Proof. vm_compute. repeat split; reflexivity. Qed.

(** A rejected login leaves the session without a token. *)
Example rejected_login :
  let s := scriptState loggedIn
             [okResponse (infoBody "abc123"); okResponse (loginBody "")] in
  let '(s', err) := authenticate s in
  err = Some (errorString ("auth failed: 0: " +:+ dquote +:+ dquote))
  /\ token (client s') = ""
  /\ authLog s' = [false].
Proof. vm_compute. repeat split; reflexivity. Qed.

(** The whole exchange of the two-page scenario, from [NewClient] on:
    the login, two page requests with the token [T1], and no third. *)
Example scenario_two_pages :
  let '(s0, err0) :=
    NewClient "https://omada:8043" "admin" "secret"
      {| pending := [okResponse (infoBody "abc123");
                     okResponse (loginBody "T1");
                     okResponse (clientsBody firstPage);
                     okResponse (clientsBody secondPage);
                     okResponse (clientsBody secondPage)];
         sent := []; jar := [] |} in
  let '(s1, out) := ConnectedClients "Default" s0 in
  err0 = None
  /\ out = Returns (Some (map Some (clientsFrom 0 100)), None)
  /\ length (allData [firstPage; secondPage]) = 101%nat
  /\ map (fun r => (Method r, URL r, Header r !! "Csrf-Token")) (requests s1)
     = [("GET", "https://omada:8043/api/info", Some "");
        ("POST", "https://omada:8043/abc123/api/v2/login", Some "");
        ("GET", "https://omada:8043/abc123/api/v2/sites/Default/clients?currentPage=1&currentPageSize=100&filters.active=true", Some "T1");
        ("GET", "https://omada:8043/abc123/api/v2/sites/Default/clients?currentPage=2&currentPageSize=100&filters.active=true", Some "T1")]
  /\ length (pending (world s1)) = 1%nat.
Proof. vm_compute. repeat split; reflexivity. Qed.

(** The cookies of the jar go out with every request and are logged after
    the login. *)
Example cookies_after_login :
  let session := {| cookieName := "TPOMADA_SESSIONID"; cookieValue := "c0" |} in
  let s := scriptStateWith [session]
             (newClient "https://omada:8043" "admin" "secret")
             [okResponse (infoBody "abc123"); okResponse (loginBody "T1")] in
  let '(s', err) := authenticate s in
  err = None
  /\ map Cookies (requests s') = [[session]; [session]]
  /\ logger (client s') = [logCookie session].
Proof. vm_compute. repeat split; reflexivity. Qed.

(** * Further properties *)

(** ** De-duplication, continued *)

Section DedupeMore.

Implicit Types (inp a b before : list ConnectedClient).

Lemma firstOccurrences_app a : forall before b,
  firstOccurrences before (a ++ b)
  = firstOccurrences before a ++ firstOccurrences (before ++ a) b.
Proof.
  induction a as [|item a IH]; intros before b; simpl.
  - by rewrite app_nil_r.
  - rewrite IH, <- app_assoc. simpl.
    by destruct (decide (MAC item ∈ map MAC before)).
Qed.

Lemma firstOccurrences_split inp : forall b1 b2,
  firstOccurrences (b1 ++ b2) inp
  = filter (fun x => MAC x ∉ map MAC b1) (firstOccurrences b2 inp).
Proof.
  induction inp as [|item inp IH]; intros b1 b2; simpl; [done|].
  rewrite <- app_assoc, IH.
  destruct (decide (MAC item ∈ map MAC (b1 ++ b2))) as [Hin|Hnin];
    destruct (decide (MAC item ∈ map MAC b2)) as [Hin2|Hnin2]; try done.
  - rewrite filter_cons.
    destruct (decide (MAC item ∉ map MAC b1)) as [Hn1|_]; [|done].
    rewrite map_app, elem_of_app in Hin. tauto.
  - exfalso. apply Hnin. rewrite map_app, elem_of_app. tauto.
  - rewrite filter_cons.
    destruct (decide (MAC item ∉ map MAC b1)) as [_|Hn1]; [done|].
    exfalso. apply Hn1. intros Hin1. apply Hnin.
    rewrite map_app, elem_of_app. tauto.
Qed.

Lemma firstOccurrences_all inp m :
  m ∈ map MAC (firstOccurrences [] inp) <-> m ∈ map MAC inp.
Proof.
  rewrite firstOccurrences_keys. simpl. rewrite elem_of_nil. tauto.
Qed.

Lemma firstOccurrences_twice inp :
  firstOccurrences [] (firstOccurrences [] inp) = firstOccurrences [] inp.
Proof.
  apply firstOccurrences_fixed; [apply firstOccurrences_NoDup|].
  intros m _. apply not_elem_of_nil.
Qed.

Lemma filter_keys_ext a a' (l : list ConnectedClient) :
  (forall m, m ∈ map MAC a <-> m ∈ map MAC a') ->
  filter (fun x => MAC x ∉ map MAC a) l
  = filter (fun x => MAC x ∉ map MAC a') l.
Proof.
  intros Hext. apply list_filter_iff. intros x. by rewrite Hext.
Qed.

Lemma firstOccurrences_concat a b :
  firstOccurrences [] (a ++ b)
  = firstOccurrences [] a
    ++ filter (fun x => MAC x ∉ map MAC a) (firstOccurrences [] b).
Proof.
  rewrite firstOccurrences_app. simpl. f_equal.
  rewrite <- (app_nil_r a) at 1. apply firstOccurrences_split.
Qed.

(** X1. De-duplicating a concatenation of records: the de-duplicated first
    part, then the records of the de-duplicated second part whose MAC the
    first part does not hold.  So de-duplicating page by page and then
    once more gives what de-duplicating once at the end gives. *)
Theorem dedupeClients_app (a b : list ConnectedClient) :
  exists da db,
    dedupeClients (map Some a) = Returns (map Some da)
    /\ dedupeClients (map Some b) = Returns (map Some db)
    /\ dedupeClients (map Some (a ++ b))
       = Returns (map Some
                   (da ++ filter (fun x => MAC x ∉ map MAC a) db))
    /\ dedupeClients (map Some (da ++ db))
       = dedupeClients (map Some (a ++ b)).
Proof.
  exists (firstOccurrences [] a), (firstOccurrences [] b).
  rewrite !dedupeClients_spec. split; [done|]. split; [done|].
  split; [by rewrite firstOccurrences_concat|].
  do 2 f_equal. rewrite !firstOccurrences_concat, !firstOccurrences_twice.
  f_equal. apply filter_keys_ext. intros m. apply firstOccurrences_all.
Qed.

(** X2. As many records come out as the input has distinct MACs; the input
    comes out unchanged exactly when its MACs are distinct. *)
Theorem dedupeClients_size (inp : list ConnectedClient) :
  exists out,
    dedupeClients (map Some inp) = Returns (map Some out)
    /\ length out = size (list_to_set (map MAC inp) : gset string)
    /\ (length out <= length inp)%nat
    /\ (out = inp <-> NoDup (map MAC inp)).
Proof.
  exists (firstOccurrences [] inp). rewrite dedupeClients_spec.
  split; [done|]. split; [|split].
  - rewrite <- (length_map MAC).
    rewrite <- (size_list_to_set (C := gset string))
      by apply firstOccurrences_NoDup.
    f_equal. apply set_eq. intros m.
    rewrite !elem_of_list_to_set. apply firstOccurrences_all.
  - apply sublist_length, firstOccurrences_sublist.
  - split.
    + intros <-. apply firstOccurrences_NoDup.
    + intros Hnd. apply firstOccurrences_fixed; [done|].
      intros m _. apply not_elem_of_nil.
Qed.

(** X20. [dedupeClients] panics exactly when its input holds a nil pointer,
    wherever it stands; otherwise it returns, and returns the pointers to
    the first record of each MAC. *)
Theorem dedupeClients_nil_pointer (ptrs : list (option ConnectedClient)) :
  (dedupeClients ptrs = Panics <-> None ∈ ptrs)
  /\ (forall out,
        dedupeClients ptrs = Returns out
        <-> exists recs, ptrs = map Some recs
                         /\ out = map Some (firstOccurrences [] recs)).
Proof.
  destruct (records_or_nil ptrs) as [[recs ->]|Hnil].
  - rewrite dedupeClients_spec. split.
    + split; [done|].
      intros (x & E & _)%list_elem_of_fmap. discriminate E.
    + intros out. split.
      * intros [= <-]. by exists recs.
      * intros (recs' & E & ->).
        apply (inj (fmap Some)) in E. by subst recs'.
  - assert (Hp : dedupeClients ptrs = Panics).
    { unfold dedupeClients. by rewrite (dedupeLoop_nil ptrs _ Hnil). }
    rewrite Hp. split; [done|].
    intros out. split; [done|].
    intros (recs & -> & _).
    apply list_elem_of_fmap in Hnil as (x & E & _). discriminate E.
Qed.

End DedupeMore.

(** ** The request layer, continued *)

Section RequestsMore.
Context `{Net}.

Lemma fold_AddCookie (cs : list Cookie) : forall r,
  Method (fold_left AddCookie cs r) = Method r
  /\ URL (fold_left AddCookie cs r) = URL r
  /\ Header (fold_left AddCookie cs r) = Header r
  /\ ReqBody (fold_left AddCookie cs r) = ReqBody r
  /\ Cookies (fold_left AddCookie cs r) = Cookies r ++ cs.
Proof.
  induction cs as [|c cs IH]; intros r; simpl.
  - by rewrite app_nil_r.
  - destruct (IH (AddCookie r c)) as (-> & -> & -> & -> & ->).
    simpl. by rewrite <- app_assoc.
Qed.

(** X3. Every call of [doJSON] hands exactly one request to the transport:
    the caller's request with the five fixed headers set (the token of the
    session as [Csrf-Token]), its other headers kept, and the cookies of
    the jar appended. *)
Theorem doJSON_sends_one {T} (req : Request)
    (decode : Body -> T -> T * option error)
    (target : T) (s : State) :
  exists sentReq,
    requests (fst (doJSON req decode target s)) = requests s ++ [sentReq]
    /\ world (fst (doJSON req decode target s))
       = fst (http_Do sentReq (world s))
    /\ Method sentReq = Method req
    /\ URL sentReq = URL req
    /\ ReqBody sentReq = ReqBody req
    /\ Cookies sentReq
       = Cookies req ++ Jar_Cookies (world s) (baseURL (client s))
    /\ Header sentReq !! "Accept"
       = Some "application/json, text/javascript, */*; q=0.01"
    /\ Header sentReq !! "Accept-Language" = Some "en-US,en;q=0.5"
    /\ Header sentReq !! "Content-Type"
       = Some "application/json; charset=UTF-8"
    /\ Header sentReq !! "X-Requested-With" = Some "XMLHttpRequest"
    /\ Header sentReq !! "Csrf-Token" = Some (token (client s))
    /\ forall k,
         k ∉ ["Accept"; "Accept-Language"; "Content-Type";
              "X-Requested-With"; "Csrf-Token"] ->
         Header sentReq !! k = Header req !! k.
Proof.
  exists (outgoing req s). rewrite doJSON_run.
  destruct (http_Do (outgoing req s) (world s)) as [w res] eqn:Edo.
  simpl. split; [done|]. split; [done|].
  unfold outgoing.
  match goal with
  | |- context [fold_left AddCookie ?cs ?r] =>
      destruct (fold_AddCookie cs r) as (-> & -> & -> & -> & ->)
  end.
  simpl. do 4 (split; [done|]).
  do 5 (split;
        [by repeat first [rewrite lookup_insert_eq
                         |rewrite lookup_insert_ne by done]|]).
  intros k Hk. rewrite !not_elem_of_cons in Hk.
  destruct Hk as (? & ? & ? & ? & ? & _).
  by rewrite !lookup_insert_ne.
Qed.

(** X4. [doJSON] returns no error exactly when the transport answered with
    status 200 and the body decoded into the target without error; the
    target then holds what the decoder made of it. *)
Theorem doJSON_success {T} (req : Request)
    (decode : Body -> T -> T * option error) (target v : T) (s s' : State) :
  doJSON req decode target s = (s', (v, None))
  <-> exists w res,
        http_Do (outgoing req s) (world s) = (w, inr res)
        /\ StatusCode res = 200
        /\ decode (RespBody res) target = (v, None)
        /\ s' = afterDo (outgoing req s) w s.
Proof.
  rewrite doJSON_run.
  destruct (http_Do (outgoing req s) (world s)) as [w [e|res]] eqn:Edo.
  - split; [done|]. by intros (w' & res' & [= _ ?] & _).
  - unfold classify.
    destruct (StatusCode res =? 401) eqn:E401.
    { apply Z.eqb_eq in E401. split; [done|].
      intros (w' & res' & [= _ <-] & H200 & _). lia. }
    destruct (StatusCode res =? 200) eqn:E200; simpl.
    + apply Z.eqb_eq in E200.
      destruct (decode (RespBody res) target) as [v' [e|]] eqn:Ed.
      * split; [done|].
        intros (w' & res' & [= _ <-] & _ & Hd & _). congruence.
      * split.
        -- intros [= <- <-]. by exists w, res.
        -- intros (w' & res' & [= <- <-] & _ & Hd & ->). congruence.
    + apply Z.eqb_neq in E200. split; [done|].
      intros (w' & res' & [= _ <-] & H200 & _). done.
Qed.

(** X5. A status other than 200 and 401 (a 204 or a 302 as much as a 500) is
    an error naming the URL and the status: the body is not decoded, the
    target keeps its value, and the error is not the token-expired
    signal, so a page fetch returns it without a login. *)
Theorem doJSON_status_error {T} (req : Request)
    (decode : Body -> T -> T * option error)
    (target : T) (s : State) (w : World) (res : Response) :
  http_Do (outgoing req s) (world s) = (w, inr res) ->
  StatusCode res <> 200 -> StatusCode res <> 401 ->
  let e := errorString
             (Quote (URL req) +:+ " returned " +:+ Quote (Status res)) in
  doJSON req decode target s = (afterDo (outgoing req s) w s, (target, Some e))
  /\ errors_Is (Some e) errTokenExpired = false
  /\ forall site p r0,
       req = {| Method := "GET";
                URL := baseURL (client s) +:+ clientsPath site p;
                Header := ∅; Cookies := []; ReqBody := NoBody |} ->
       url_ParseErr (baseURL (client s) +:+ clientsPath site p) = None ->
       retryOnce (get site p) r0 s
       = (afterDo (outgoing req s) w s, (r0, Some e)).
Proof.
  intros Hdo H200 H401. cbv zeta.
  assert (Hu : URL (outgoing req s) = URL req).
  { unfold outgoing.
    match goal with
    | |- context [fold_left AddCookie ?cs ?r] =>
        destruct (fold_AddCookie cs r) as (_ & -> & _)
    end. done. }
  split; [|split; [done|]].
  - rewrite doJSON_run, Hdo. unfold classify.
    apply Z.eqb_neq in H200, H401. by rewrite H200, H401, Hu.
  - intros site p r0 -> Hparse.
    rewrite retryOnce_run, get_run, getJSON_run, Hparse.
    unfold requestOf. rewrite Hdo. unfold classify.
    apply Z.eqb_neq in H200, H401. rewrite H200, H401. simpl.
    by rewrite Hu.
Qed.

(** X6. An URL that does not parse goes nowhere: [getJSON] and [postJSON]
    return the error of [http.NewRequest] with the state as it was, and so
    does the closure [get]. *)
Theorem unparsable_url_sends_nothing {T} (url : string) (body : RequestBody)
    (decode : Body -> T -> T * option error) (target : T) (s : State)
    (e : error) :
  url_ParseErr (baseURL (client s) +:+ url) = Some e ->
  getJSON url decode target s = (s, (target, Some e))
  /\ postJSON url body decode target s = (s, (target, Some e))
  /\ forall site p r0,
       url = clientsPath site p -> get site p r0 s = (s, (r0, Some e)).
Proof.
  intros Hparse. rewrite getJSON_run, postJSON_run, Hparse.
  split; [done|]. split; [done|].
  intros site p r0 ->. by rewrite get_run, getJSON_run, Hparse.
Qed.

(** X7. Whatever comes of it, a request leaves the client as it was: token,
    base path, credentials and logger; and no login is noted. *)
Theorem requests_keep_session {T} (url : string) (body : RequestBody)
    (decode : Body -> T -> T * option error) (target : T) (req : Request)
    (site : string) (p : Z) (r0 : ClientsResult) (s : State) :
  let unchanged (s' : State) :=
    client s' = client s /\ authLog s' = authLog s in
  unchanged (fst (doJSON req decode target s))
  /\ unchanged (fst (getJSON url decode target s))
  /\ unchanged (fst (postJSON url body decode target s))
  /\ unchanged (fst (get site p r0 s)).
Proof.
  cbv zeta. split; [|split; [|split]].
  - rewrite doJSON_run. by destruct (http_Do _ (world s)).
  - apply getJSON_frame.
  - rewrite postJSON_run. destruct (url_ParseErr _); [done|].
    by destruct (http_Do _ (world s)).
  - apply get_frame.
Qed.

(** A [get] without error: the one exchange behind it. *)
Lemma get_ok (site : string) (p : Z) (r0 r : ClientsResult) (s s' : State) :
  get site p r0 s = (s', (r, None)) ->
  ErrorCode r = 0
  /\ exists w res,
       http_Do (requestOf "GET" (clientsPath site p) NoBody s) (world s)
       = (w, inr res)
       /\ StatusCode res = 200
       /\ asClients (RespBody res) r0 = (r, None)
       /\ s' = afterDo (requestOf "GET" (clientsPath site p) NoBody s) w s.
Proof.
  rewrite get_run, getJSON_run.
  destruct (url_ParseErr _); [done|].
  destruct (http_Do _ (world s)) as [w [e|res]] eqn:Edo; [done|].
  unfold classify.
  destruct (StatusCode res =? 401); [done|].
  destruct (StatusCode res =? 200) eqn:E200; [|done]. simpl.
  destruct (asClients (RespBody res) r0) as [r' [e|]] eqn:Ed; [done|].
  unfold envelopeError.
  destruct (ErrorCode r' =? -1200); [done|].
  destruct (ErrorCode r' =? 0) eqn:E0; [|done]. simpl.
  intros [= <- <-]. apply Z.eqb_eq in E0, E200.
  split; [done|]. by exists w, res.
Qed.

(** X8. When [get] returns no error, one exchange happened: the request
    for its page was answered with status 200, the body was decoded
    without error into [r] as the closure found it, and the envelope then
    in [r] has [errorCode] 0.  What that envelope is depends on what [r]
    held before: the decoder writes what the answer names and nothing
    else. *)
Theorem get_success (site : string) (p : Z) (r0 r : ClientsResult)
    (s s' : State) :
  get site p r0 s = (s', (r, None)) ->
  ErrorCode r = 0
  /\ exists w res,
       http_Do (requestOf "GET" (clientsPath site p) NoBody s) (world s)
       = (w, inr res)
       /\ StatusCode res = 200
       /\ asClients (RespBody res) r0 = (r, None)
       /\ s' = afterDo (requestOf "GET" (clientsPath site p) NoBody s) w s
       /\ requests s'
          = requests s ++ [requestOf "GET" (clientsPath site p) NoBody s].
Proof.
  intros Hg. destruct (get_ok _ _ _ _ _ _ Hg) as (H0 & w & res & Hdo & H200
    & Hdec & ->).
  split; [done|]. by exists w, res.
Qed.

End RequestsMore.

(** ** The login, continued *)

Section SessionMore.
Context `{Net}.

Lemma logCookies_run (cookies : list Cookie) : forall s,
  fst (logCookies cookies s)
  = withClient
      (withLogger (logger (client s) ++ map logCookie cookies) (client s)) s.
Proof.
  induction cookies as [|c cookies IH]; intros s; simpl.
  - rewrite app_nil_r. by destruct s as [[] ? ? ?].
  - unfold_st. unfold logWrite. rewrite IH. simpl.
    by rewrite <- app_assoc.
Qed.

Ltac login_sends :=
  simpl; rewrite <- ?app_assoc;
  first
    [ exists []; split; [by rewrite app_nil_r|];
      split; [done|by left]
    | eexists; split; [reflexivity|]; split; [done|];
      right; left; eexists; split; [first [reflexivity|eassumption]|reflexivity]
    | eexists; split; [reflexivity|]; split; [done|];
      right; right; do 5 eexists;
      repeat (split; [first [reflexivity|eassumption]|]); reflexivity ].

Lemma authenticate_sent (s : State) :
  let '(s', err) := authenticate s in
  exists l,
    requests s' = requests s ++ l
    /\ (err = None -> length l = 2%nat)
    /\ (l = []
        \/ (exists rootPath,
              url_JoinPath (configPath (client s)) "/" = inr rootPath
              /\ l = [infoRequest rootPath s])
        \/ (exists rootPath newPath w1 res1 ir,
              url_JoinPath (configPath (client s)) "/" = inr rootPath
              /\ http_Do (infoRequest rootPath s) (world s) = (w1, inr res1)
              /\ asInfo (RespBody res1) zeroInfoResult = (ir, None)
              /\ url_JoinPath (configPath (client s)) (irControllerID ir)
                 = inr newPath
              /\ l = [infoRequest rootPath s; loginRequestOf newPath w1 s])).
Proof.
  unfold authenticate, authenticateBody, SetToken, SetBaseURL, Username,
    Password, BaseURL, JarCookies, infoRequest, loginRequestOf.
  unfold_st. simpl.
  destruct (url_JoinPath (configPath (client s)) "/") as [e|rootPath] eqn:Er;
    [login_sends|].
  rewrite getJSON_run. simpl.
  destruct (url_ParseErr _) as [e|]; [login_sends|].
  destruct (http_Do _ (world s)) as [w1 [e|res1]] eqn:Edo1; [login_sends|].
  unfold classify at 1.
  destruct (StatusCode res1 =? 401); [login_sends|].
  destruct (StatusCode res1 =? 200); simpl; [|login_sends].
  destruct (asInfo (RespBody res1) zeroInfoResult) as [ir [e|]] eqn:Eir;
    [login_sends|simpl].
  destruct (String.eqb (irControllerID ir) ""); [login_sends|simpl].
  destruct (url_JoinPath (configPath (client s)) (irControllerID ir))
    as [e|newPath] eqn:En; [login_sends|simpl].
  rewrite postJSON_run. simpl.
  destruct (url_ParseErr _) as [e|]; [login_sends|].
  destruct (http_Do _ w1) as [w2 [e|res2]]; [login_sends|].
  unfold classify at 1.
  destruct (StatusCode res2 =? 401); [login_sends|].
  destruct (StatusCode res2 =? 200); simpl; [|login_sends].
  destruct (asAuth (RespBody res2) zeroAuthResult) as [ar [e|]];
    [login_sends|simpl].
  destruct (String.eqb (arToken ar) ""); [login_sends|simpl].
  rewrite (surjective_pairing (logCookies _ _)), logCookies_run.
  login_sends.
Qed.

(** X9. A login sends at most two requests and never repeats one: first the
    [GET] of [/api/info] under the joined root, with no body; then, only
    after an answer that could be joined into a controller path, the
    [POST] of [/api/v2/login] under that path, the only request that
    carries the credentials.  Both go out with an empty token, and a
    successful login has sent both. *)
Theorem authenticate_two_requests (s : State) :
  let '(s', err) := authenticate s in
  (exists l,
    requests s' = requests s ++ l
    /\ (length l <= 2)%nat
    /\ (err = None -> length l = 2%nat)
    /\ (l = []
        \/ (exists rootPath,
              url_JoinPath (configPath (client s)) "/" = inr rootPath
              /\ l = [infoRequest rootPath s])
        \/ (exists rootPath newPath w1 res1 ir,
              url_JoinPath (configPath (client s)) "/" = inr rootPath
              /\ http_Do (infoRequest rootPath s) (world s) = (w1, inr res1)
              /\ asInfo (RespBody res1) zeroInfoResult = (ir, None)
              /\ url_JoinPath (configPath (client s)) (irControllerID ir)
                 = inr newPath
              /\ l = [infoRequest rootPath s;
                      loginRequestOf newPath w1 s])))
  /\ (forall rootPath,
        Method (infoRequest rootPath s) = "GET"
        /\ URL (infoRequest rootPath s)
           = TrimSuffix rootPath "/" +:+ "/api/info"
        /\ ReqBody (infoRequest rootPath s) = NoBody
        /\ Header (infoRequest rootPath s) !! "Csrf-Token" = Some "")
  /\ (forall newPath w1,
        Method (loginRequestOf newPath w1 s) = "POST"
        /\ URL (loginRequestOf newPath w1 s)
           = TrimSuffix newPath "/" +:+ "/api/v2/login"
        /\ ReqBody (loginRequestOf newPath w1 s)
           = JSONObject [("password", password (client s));
                         ("username", username (client s))]
        /\ Header (loginRequestOf newPath w1 s) !! "Csrf-Token" = Some "").
Proof.
  pose proof (authenticate_sent s) as Hs.
  destruct (authenticate s) as [s' err].
  split; [|split].
  - destruct Hs as (l & Hl & Hok & Hcases). exists l.
    split; [done|]. split; [|done].
    destruct Hcases as [->|[(? & _ & ->)|(? & ? & ? & ? & ? & _ & _ & _ & _ & ->)]];
      simpl; lia.
  - intros rootPath. unfold infoRequest.
    by destruct (requestOf_session "GET" "/api/info" NoBody
      (sessionOf "" (TrimSuffix rootPath "/") (world s) s)) as (-> & -> & -> & ->).
  - intros newPath w1. unfold loginRequestOf.
    by destruct (requestOf_session "POST" "/api/v2/login" (credentials s)
      (sessionOf "" (TrimSuffix newPath "/") w1 s)) as (-> & -> & -> & ->).
Qed.

(** X10. A login starts from scratch: what it does and returns does not depend
    on the token the client held, nor, when the root can be joined, on its
    base path.  When the root cannot be joined the login fails with the
    token cleared, nothing sent, and the base path left as it was. *)
Theorem authenticate_from_scratch (s : State) (tok base : string) :
  authenticate (withClient (withToken tok (client s)) s) = authenticate s
  /\ match url_JoinPath (configPath (client s)) "/" with
     | inr _ =>
         authenticate (withClient (withBaseURL base (client s)) s)
         = authenticate s
     | inl e =>
         authenticate s
         = (noteAuth false (withClient (withToken "" (client s)) s), Some e)
     end.
Proof.
  split; [reflexivity|].
  unfold authenticate, authenticateBody, SetToken, SetBaseURL.
  unfold_st. simpl.
  by destruct (url_JoinPath (configPath (client s)) "/").
Qed.

Lemma authenticate_logged (s : State) :
  let '(s', err) := authenticate s in
  exists added,
    client s'
    = withToken (token (client s'))
        (withBaseURL (baseURL (client s'))
           (withLogger (logger (client s) ++ added) (client s)))
    /\ added = match err with
               | Some _ => []
               | None =>
                   map logCookie
                     (Jar_Cookies (world s') (baseURL (client s')))
               end
    /\ authLog s' = authLog s ++ [bool_decide (err = None)].
Proof.
  unfold authenticate, authenticateBody, SetToken, SetBaseURL, Username,
    Password, BaseURL, JarCookies.
  unfold_st. simpl.
  destruct (url_JoinPath (configPath (client s)) "/") as [e|rootPath];
    [exists []; by rewrite app_nil_r|].
  rewrite getJSON_run. simpl.
  destruct (url_ParseErr _) as [e|]; [exists []; by rewrite app_nil_r|].
  destruct (http_Do _ (world s)) as [w1 [e|res1]];
    [exists []; by rewrite app_nil_r|].
  unfold classify at 1.
  destruct (StatusCode res1 =? 401); [exists []; by rewrite app_nil_r|].
  destruct (StatusCode res1 =? 200); simpl;
    [|exists []; by rewrite app_nil_r].
  destruct (asInfo (RespBody res1) zeroInfoResult) as [ir [e|]];
    [exists []; by rewrite app_nil_r|simpl].
  destruct (String.eqb (irControllerID ir) "");
    [exists []; by rewrite app_nil_r|simpl].
  destruct (url_JoinPath (configPath (client s)) (irControllerID ir))
    as [e|newPath]; [exists []; by rewrite app_nil_r|simpl].
  rewrite postJSON_run. simpl.
  destruct (url_ParseErr _) as [e|]; [exists []; by rewrite app_nil_r|].
  destruct (http_Do _ w1) as [w2 [e|res2]];
    [exists []; by rewrite app_nil_r|].
  unfold classify at 1.
  destruct (StatusCode res2 =? 401); [exists []; by rewrite app_nil_r|].
  destruct (StatusCode res2 =? 200); simpl;
    [|exists []; by rewrite app_nil_r].
  destruct (asAuth (RespBody res2) zeroAuthResult) as [ar [e|]];
    [exists []; by rewrite app_nil_r|simpl].
  destruct (String.eqb (arToken ar) "");
    [exists []; by rewrite app_nil_r|simpl].
  rewrite (surjective_pairing (logCookies _ _)), logCookies_run.
  simpl. eexists. split; [reflexivity|]. by split.
Qed.

(** X11. A failed login writes nothing to the log; a successful one writes an
    entry for each cookie of the jar, with the cookie's name and value. *)
Theorem authenticate_log (s : State) :
  let '(s', err) := authenticate s in
  match err with
  | Some _ => logger (client s') = logger (client s)
  | None =>
      logger (client s')
      = logger (client s)
        ++ map logCookie (Jar_Cookies (world s') (baseURL (client s')))
  end
  /\ configPath (client s') = configPath (client s)
  /\ username (client s') = username (client s)
  /\ password (client s') = password (client s)
  /\ authLog s' = authLog s ++ [bool_decide (err = None)].
Proof.
  pose proof (authenticate_logged s) as Hl.
  destruct (authenticate s) as [s' err].
  destruct Hl as (added & Hc & -> & Ha). rewrite Hc. simpl.
  split; [|by repeat split].
  destruct err as [e|]; [by rewrite app_nil_r|done].
Qed.

(** X12. [NewClient] returns no error exactly when the client it built holds a
    token; the client keeps the configured path and credentials, one
    login has been noted, and at most two requests have been sent (two
    when there is no error). *)
Theorem NewClient_outcome (path user pass : string) (w : World) :
  let '(s, err) := NewClient path user pass w in
  (err = None <-> token (client s) <> "")
  /\ configPath (client s) = path
  /\ username (client s) = user
  /\ password (client s) = pass
  /\ authLog s = [bool_decide (err = None)]
  /\ (length (requests s) <= 2)%nat
  /\ (err = None -> length (requests s) = 2%nat)
  /\ SessionInv s.
Proof.
  unfold NewClient.
  match goal with |- context [authenticate ?s0] =>
    pose proof (authenticate_logged s0) as Hlog;
    pose proof (authenticate_sent s0) as Hsent;
    pose proof (authenticate_inv s0) as Hinv;
    destruct (authenticate s0) as [s err]
  end.
  simpl in *. pose proof Hinv as Hinv'. unfold SessionInv in Hinv.
  destruct Hlog as (added & Hc & _ & Hauth).
  rewrite Hc, Hauth in *. simpl.
  destruct Hsent as (l & -> & Hok & Hcases).
  assert (Hlen : (length l <= 2)%nat).
  { destruct Hcases
      as [->|[(? & _ & ->)|(? & ? & ? & ? & ? & _ & _ & _ & _ & ->)]];
      simpl; lia. }
  simpl in Hinv.
  split.
  { rewrite Hinv. split.
    - by intros ->.
    - intros [= E]. by apply bool_decide_eq_true_1 in E. }
  do 4 (split; [done|]). split; [done|]. split; [exact Hok|].
  exact Hinv'.
Qed.

End SessionMore.

(** ** Pagination, continued *)

Section PaginationMore.
Context `{Net}.

Implicit Types (acc : list (option ConnectedClient))
  (rs : list ClientsResult).

Lemma get_at_most_one (site : string) (p : Z) (r : ClientsResult) (s : State) :
  exists l, requests (fst (get site p r s)) = requests s ++ l
            /\ Forall (pageRequest site p) l /\ (length l <= 1)%nat.
Proof.
  rewrite get_run, getJSON_run.
  destruct (url_ParseErr _) as [e|].
  - exists []. simpl. rewrite app_nil_r. repeat split; [constructor|lia].
  - exists [requestOf "GET" (clientsPath site p) NoBody s].
    destruct (http_Do _ (world s)) as [w res].
    destruct (classify _ asClients r res) as [r' [e|]]; simpl;
      (split; [done|]); (split; [|lia]);
      apply Forall_cons; (split; [apply requestOf_page|constructor]).
Qed.

Lemma authenticate_at_most_two (s : State) :
  exists l, requests (fst (authenticate s)) = requests s ++ l
            /\ Forall loginRequest l /\ (length l <= 2)%nat
            /\ authLog (fst (authenticate s))
               = authLog s ++ [bool_decide (snd (authenticate s) = None)].
Proof.
  pose proof (authenticate_sent s) as Hs.
  pose proof (authenticate_logged s) as Hl.
  destruct (authenticate_requests s) as (l' & Hl' & Hf).
  destruct (authenticate s) as [s' err]. simpl in *.
  destruct Hs as (l & Hreq & _ & Hcases).
  destruct Hl as (_ & _ & _ & Ha).
  assert (l' = l) as -> by (rewrite Hreq in Hl'; by apply app_inv_head in Hl').
  exists l. split; [done|]. split; [done|]. split; [|done].
  destruct Hcases
    as [->|[(? & _ & ->)|(? & ? & ? & ? & ? & _ & _ & _ & _ & ->)]];
    simpl; lia.
Qed.

(** One page fetch: requests of the page and of a login, four at most,
    and at most one login. *)
Lemma fetch_bound (site : string) (p : Z) (r : ClientsResult) (s : State) :
  exists l a,
    requests (fst (retryOnce (get site p) r s)) = requests s ++ l
    /\ pagesAsked site p p l /\ (length l <= 4)%nat
    /\ authLog (fst (retryOnce (get site p) r s)) = authLog s ++ a
    /\ (length a <= 1)%nat.
Proof.
  rewrite retryOnce_run.
  destruct (get_at_most_one site p r s) as (l1 & Hl1 & Hp1 & Hn1).
  destruct (get_frame site p r s) as [_ Ha1].
  destruct (get site p r s) as [s1 [r1 e1]]. simpl in Hl1, Ha1.
  destruct (errors_Is e1 errTokenExpired).
  - destruct (authenticate_at_most_two s1) as (l2 & Hl2 & Hp2 & Hn2 & Ha2).
    destruct (authenticate s1) as [s2 [e|]]; simpl in Hl2, Ha2.
    + exists (l1 ++ l2), [false]. simpl.
      rewrite Hl2, Hl1, Ha2, Ha1, app_assoc, length_app.
      repeat split; try done; [|lia].
      apply pagesAsked_app;
        [by apply pagesAsked_page|by apply pagesAsked_login].
    + destruct (get_at_most_one site p r1 s2) as (l3 & Hl3 & Hp3 & Hn3).
      destruct (get_frame site p r1 s2) as [_ Ha3].
      exists (l1 ++ l2 ++ l3), [true].
      rewrite Hl3, Hl2, Hl1, Ha3, Ha2, Ha1, !app_assoc, !length_app.
      repeat split; try done; [|lia].
      repeat apply pagesAsked_app;
        [by apply pagesAsked_page|by apply pagesAsked_login
        |by apply pagesAsked_page].
  - exists l1, []. simpl. rewrite app_nil_r, Ha1.
    repeat split; try done; [by apply pagesAsked_page|lia|simpl; lia].
Qed.

Lemma pageLoop_bound (site : string) : forall fuel p acc s,
  exists l a,
    requests (fst (pageLoop fuel site p acc s)) = requests s ++ l
    /\ pagesAsked site p maxPages l
    /\ (length l <= 4 * fuel)%nat
    /\ authLog (fst (pageLoop fuel site p acc s)) = authLog s ++ a
    /\ (length a <= fuel)%nat.
Proof.
  induction fuel as [|fuel IH]; intros p acc s; simpl;
    destruct (p <=? maxPages) eqn:Ep;
    try (exists [], []; rewrite !app_nil_r;
         repeat split; try done; try constructor; simpl; lia).
  apply Z.leb_le in Ep. unfold_st.
  destruct (fetch_bound site p zeroClientsResult s)
    as (l1 & a1 & Hl1 & Hp1 & Hn1 & Ha1 & Hm1).
  destruct (retryOnce (get site p) zeroClientsResult s) as [s1 [r [e|]]];
    simpl in Hl1, Ha1.
  - exists l1, a1. simpl. repeat split; try done; [|lia|lia].
    apply (pagesAsked_weaken site p p); [lia|lia|done].
  - destruct (_ || _).
    + exists l1, a1. simpl. repeat split; try done; [|lia|lia].
      apply (pagesAsked_weaken site p p); [lia|lia|done].
    + destruct (IH (p + 1) (acc ++ Data (Result r)) s1)
        as (l2 & a2 & Hl2 & Hp2 & Hn2 & Ha2 & Hm2).
      exists (l1 ++ l2), (a1 ++ a2).
      rewrite Hl2, Hl1, Ha2, Ha1, !app_assoc, !length_app.
      repeat split; try done; [|lia|lia].
      apply pagesAsked_app.
      * apply (pagesAsked_weaken site p p); [lia|lia|done].
      * apply (pagesAsked_weaken site (p + 1) maxPages); [lia|lia|done].
Qed.

(** X13. Whatever the controller answers, [ConnectedClients] ends after
    at most forty requests, each of a login or of one of the pages 1 to
    10, and after at most ten logins. *)
Theorem ConnectedClients_bounds (site : string) (s : State) :
  exists l a,
    requests (fst (ConnectedClients site s)) = requests s ++ l
    /\ pagesAsked site 1 10 l
    /\ (length l <= 40)%nat
    /\ authLog (fst (ConnectedClients site s)) = authLog s ++ a
    /\ (length a <= 10)%nat.
Proof.
  rewrite ConnectedClients_run.
  destruct (pageLoop_bound site (Z.to_nat maxPages) 1 [] s)
    as (l & a & Hl & Hp & Hn & Ha & Hm).
  destruct (pageLoop _ site 1 [] s) as [s' [[cp cl] [e|]]];
    simpl in Hl, Ha; exists l, a.
  - simpl. repeat split; try done; simpl in *; lia.
  - destruct (cp >? maxPages); simpl;
      repeat split; try done; simpl in *; lia.
Qed.

(** X14. The envelope a successful page fetch leaves has [errorCode] 0.
    It is what the decoder made of a 200 answer: of the first, starting
    from the zero value; or, when the first try failed with the signal
    and the login went through, of the second, starting from what the
    first try had left in [r].  So what an expired answer wrote and the
    second answer does not name is still in the envelope. *)
Theorem fetched_envelopes_ok (site : string) :
  (forall n p s s' rs,
     fetchPages n site p s = (s', Some rs) ->
     Forall (fun r => ErrorCode r = 0) rs)
  /\ (forall p s s' r,
        retryOnce (get site p) zeroClientsResult s = (s', (r, None)) ->
        ErrorCode r = 0
        /\ ((exists w res,
               http_Do (requestOf "GET" (clientsPath site p) NoBody s)
                       (world s) = (w, inr res)
               /\ StatusCode res = 200
               /\ asClients (RespBody res) zeroClientsResult = (r, None))
            \/ (exists s1 r1 e1 s2 w res,
                  get site p zeroClientsResult s = (s1, (r1, Some e1))
                  /\ errors_Is (Some e1) errTokenExpired = true
                  /\ authenticate s1 = (s2, None)
                  /\ http_Do (requestOf "GET" (clientsPath site p) NoBody s2)
                             (world s2) = (w, inr res)
                  /\ StatusCode res = 200
                  /\ asClients (RespBody res) r1 = (r, None)))).
Proof.
  assert (Hone : forall p s s' r,
    retryOnce (get site p) zeroClientsResult s = (s', (r, None)) ->
    ErrorCode r = 0
    /\ ((exists w res,
           http_Do (requestOf "GET" (clientsPath site p) NoBody s)
                   (world s) = (w, inr res)
           /\ StatusCode res = 200
           /\ asClients (RespBody res) zeroClientsResult = (r, None))
        \/ (exists s1 r1 e1 s2 w res,
              get site p zeroClientsResult s = (s1, (r1, Some e1))
              /\ errors_Is (Some e1) errTokenExpired = true
              /\ authenticate s1 = (s2, None)
              /\ http_Do (requestOf "GET" (clientsPath site p) NoBody s2)
                         (world s2) = (w, inr res)
              /\ StatusCode res = 200
              /\ asClients (RespBody res) r1 = (r, None)))).
  { intros p s s' r Hr. rewrite retryOnce_run in Hr.
    destruct (get site p zeroClientsResult s) as [s1 [r1 e1]] eqn:Eg.
    destruct (errors_Is e1 errTokenExpired) eqn:Ee.
    - destruct e1 as [e1|]; [|done].
      destruct (authenticate s1) as [s2 [e|]] eqn:Ea; [done|].
      destruct (get_ok _ _ _ _ _ _ Hr)
        as (H0 & w & res & Hdo & H200 & Hdec & _).
      split; [done|]. right. by exists s1, r1, e1, s2, w, res.
    - injection Hr as <- <- ->.
      destruct (get_ok _ _ _ _ _ _ Eg)
        as (H0 & w & res & Hdo & H200 & Hdec & _).
      split; [done|]. left. by exists w, res. }
  split; [|exact Hone].
  induction n as [|n IH]; intros p s s' rs Hf.
  - injection Hf as _ <-. constructor.
  - apply fetchPages_cons in Hf as (s1 & r & rest & Hr & Hrest & ->).
    apply Forall_cons. split; [|by eapply IH].
    by destruct (Hone _ _ _ _ Hr).
Qed.

(** What the loop comes to: it stops at a break page, or runs out of
    pages, or fails at the first page whose fetch fails. *)
Lemma pageLoop_outcome (site : string) : forall fuel p acc s,
  p <= maxPages + 1 ->
  (Z.to_nat (maxPages + 1 - p) <= fuel)%nat ->
  let '(s', (cp, cl, err)) := pageLoop fuel site p acc s in
  match err with
  | None =>
      exists rs,
        fetchPages (length rs) site p s = (s', Some rs)
        /\ cl = acc ++ allData rs
        /\ ((breakPage acc rs = Some (length rs)
             /\ cp = p + Z.of_nat (length rs) - 1 /\ cp <= maxPages)
            \/ (noStop acc rs = true
                /\ p + Z.of_nat (length rs) = maxPages + 1
                /\ cp = maxPages + 1))
  | Some e =>
      exists rs s1 r,
        fetchPages (length rs) site p s = (s1, Some rs)
        /\ noStop acc rs = true
        /\ p + Z.of_nat (length rs) <= maxPages
        /\ retryOnce (get site (p + Z.of_nat (length rs)))
             zeroClientsResult s1 = (s', (r, Some e))
  end.
Proof.
  induction fuel as [|fuel IH]; intros p acc s Hp Hfuel; simpl;
    destruct (p <=? maxPages) eqn:Ep;
    try (apply Z.leb_le in Ep; lia);
    try (apply Z.leb_gt in Ep; exists []; unfold allData; simpl;
         rewrite app_nil_r; split; [done|]; split; [done|];
         right; repeat split; lia).
  apply Z.leb_le in Ep. unfold_st.
  destruct (retryOnce (get site p) zeroClientsResult s)
    as [s1 [r [e|]]] eqn:Er.
  - exists [], s, r. simpl. rewrite Z.add_0_r. repeat split; try done.
  - rewrite emptyPage_length. fold (reachesTotal acc r).
    destruct (reachesTotal acc r || emptyPage r) eqn:Estop.
    + exists [r]. simpl. unfold_st. rewrite Er, Estop.
      unfold allData. simpl. rewrite app_nil_r.
      split; [done|]. split; [done|]. left. repeat split; lia.
    + specialize (IH (p + 1) (acc ++ Data (Result r)) s1).
      destruct (pageLoop fuel site (p + 1) (acc ++ Data (Result r)) s1)
        as [s' [[cp cl] err]].
      apply orb_false_iff in Estop as [E1 E2].
      destruct err as [e|].
      * destruct IH as (rs & s2 & r' & Hf & Hno & Hle & Hfail); [lia|lia|].
        exists (r :: rs), s2, r'. simpl. unfold_st. rewrite Er, Hf, E1, E2.
        simpl. split; [done|]. split; [done|]. split; [lia|].
        replace (p + Z.of_nat (S (length rs)))
          with (p + 1 + Z.of_nat (length rs)) by lia. done.
      * destruct IH as (rs & Hf & -> & Hcases); [lia|lia|].
        exists (r :: rs). simpl. unfold_st. rewrite Er, Hf.
        rewrite allData_cons, app_assoc. split; [done|]. split; [done|].
        rewrite E1, E2. simpl.
        destruct Hcases as [(Hb & -> & Hle)|(Hno & Hlen & ->)].
        -- left. rewrite Hb. simpl. repeat split; lia.
        -- right. repeat split; [done|lia].
Qed.

(** X15. The outcomes of [ConnectedClients] are these four and no other.
    In all but the third, some pages [1..j], [j] at most 10, were fetched,
    and either page [j] broke the loop and nothing was logged, or [j] is
    10, no page broke the loop, and the warning is the one thing done
    after the last fetch.  It returns a slice and no error: the pages
    held records only, and the slice (not nil) holds the first record of
    each MAC.  It panics: some page held a [null] among its records.  It
    returns an error: the slice is nil, fewer than ten pages were fetched
    without breaking the loop, and the error and the final state are
    those of the failed fetch of the next page.  It never returns an
    error together with a slice. *)
Theorem ConnectedClients_outcomes (site : string) (s : State) :
  let '(s', out) := ConnectedClients site s in
  let stopped (rs : list ClientsResult) (sf : State) :=
    (1 <= length rs <= 10)%nat
    /\ fetchPages (length rs) site 1 s = (sf, Some rs)
    /\ ((breakPage [] rs = Some (length rs) /\ s' = sf)
        \/ (noStop [] rs = true /\ length rs = 10%nat
            /\ s' = fst (logWrite (tooManyPages (allData rs)) sf))) in
  match out with
  | Returns (clients, None) =>
      exists rs sf recs kept,
        stopped rs sf
        /\ allData rs = map Some recs
        /\ clients = Some (map Some kept)
        /\ kept = firstOccurrences [] recs
        /\ NoDup (map MAC kept)
        /\ (forall m, m ∈ map MAC kept <-> m ∈ map MAC recs)
  | Panics =>
      exists rs sf, stopped rs sf /\ None ∈ allData rs
  | Returns (clients, Some e) =>
      clients = None
      /\ exists rs s1 r,
           (length rs < 10)%nat
           /\ fetchPages (length rs) site 1 s = (s1, Some rs)
           /\ noStop [] rs = true
           /\ retryOnce (get site (1 + Z.of_nat (length rs)))
                zeroClientsResult s1 = (s', (r, Some e))
  end.
Proof.
  rewrite ConnectedClients_run.
  pose proof (pageLoop_outcome site (Z.to_nat maxPages) 1 [] s) as Ho.
  destruct (pageLoop _ site 1 [] s) as [s' [[cp cl] [e|]]].
  - destruct Ho as (rs & s1 & r & Hf & Hno & Hle & Hfail);
      [unfold maxPages; lia|unfold maxPages; lia|].
    split; [done|]. exists rs, s1, r. unfold maxPages in Hle.
    repeat split; try done. lia.
  - destruct Ho as (rs & Hf & -> & Hcases);
      [unfold maxPages; lia|unfold maxPages; lia|].
    change ([] ++ allData rs) with (allData rs).
    unfold maxPages in Hcases.
    set (s1 := if cp >? maxPages
               then fst (logWrite (tooManyPages (allData rs)) s') else s').
    assert (Hstop : (1 <= length rs <= 10)%nat
      /\ fetchPages (length rs) site 1 s = (s', Some rs)
      /\ ((breakPage [] rs = Some (length rs) /\ s1 = s')
          \/ (noStop [] rs = true /\ length rs = 10%nat
              /\ s1 = fst (logWrite (tooManyPages (allData rs)) s')))).
    { subst s1. destruct Hcases as [(Hb & -> & Hle)|(Hno & Hlen & ->)].
      - pose proof (breakPage_bound _ _ _ Hb) as Hpos.
        assert ((1 + Z.of_nat (length rs) - 1 >? maxPages) = false) as ->.
        { unfold maxPages. rewrite Z.gtb_ltb. apply Z.ltb_ge. lia. }
        split; [lia|]. split; [done|]. by left.
      - change (10 + 1 >? maxPages) with true. cbv iota.
        split; [lia|]. split; [done|]. right. repeat split; [done|lia]. }
    clearbody s1.
    destruct (records_or_nil (allData rs)) as [[recs Hrecs]|Hnil].
    + rewrite Hrecs.
      destruct (returnDeduped_records recs)
        as (kept & -> & Hk & Hnd & Hkeys & _).
      exists rs, s', recs, kept. split; [exact Hstop|].
      do 4 (split; [done|]). exact Hkeys.
    + rewrite (returnDeduped_nil _ Hnil). exists rs, s'. by split.
Qed.

End PaginationMore.

(** ** The request path, continued *)

Lemma queryDecode_cons (c : ascii) (u : string) :
  queryDecode (String c u) =
    if Ascii.eqb c "%" then
      match u with
      | String h (String l rest) =>
          match unhex h, unhex l, queryDecode rest with
          | Some a, Some b, Some t => Some (String (ascii_of_N (16 * a + b)) t)
          | _, _, _ => None
          end
      | _ => None
      end
    else match queryDecode u with
         | Some t => Some (String (if Ascii.eqb c "+" then " "%char else c) t)
         | None => None
         end.
Proof. reflexivity. Qed.

Lemma queryDecode_escaped (c : ascii) (u t : string) :
  queryDecode u = Some t ->
  queryDecode (QueryEscape (String c EmptyString) +:+ u) = Some (String c t).
Proof.
  intros Hu.
  destruct c as [[] [] [] [] [] [] [] []];
    match goal with
    | |- context [QueryEscape ?x] =>
        let e := eval vm_compute in (QueryEscape x) in
        change (QueryEscape x) with e
    end;
    cbv [String.append]; rewrite queryDecode_cons; cbn [Ascii.eqb Bool.eqb];
    rewrite ?queryDecode_cons; cbn [Ascii.eqb Bool.eqb];
    rewrite Hu; reflexivity.
Qed.

Lemma QueryEscape_decodes (site : string) :
  queryDecode (QueryEscape site) = Some site.
Proof.
  induction site as [|c rest IH]; [done|].
  rewrite QueryEscape_cons. by apply queryDecode_escaped.
Qed.

Lemma QueryEscape_chars (site : string) :
  allChars segmentChar (QueryEscape site) = true.
Proof.
  induction site as [|c rest IH]; [done|].
  rewrite QueryEscape_cons.
  destruct c as [[] [] [] [] [] [] [] []];
    match goal with
    | |- context [QueryEscape (String ?c EmptyString)] =>
        let e := eval vm_compute in (QueryEscape (String c EmptyString)) in
        change (QueryEscape (String c EmptyString)) with e
    end;
    cbv [String.append]; exact IH.
Qed.

Lemma append_cancel_r (t : string) : forall a b,
  a +:+ t = b +:+ t -> a = b.
Proof.
  assert (Hlen : forall a b, a +:+ t = b +:+ t ->
                             String.length a = String.length b).
  { intros a b E. apply (f_equal String.length) in E.
    rewrite !length_append in E. lia. }
  induction a as [|c a IH]; intros b E; pose proof (Hlen _ _ E) as Hl.
  - by destruct b.
  - destruct b as [|c' b]; [done|]. simpl in E. injection E as -> E.
    f_equal. by apply IH.
Qed.

Lemma append_cancel_l (t a b : string) : t +:+ a = t +:+ b -> a = b.
Proof.
  induction t as [|c t IH]; simpl; [done|]. intros [= E]. by apply IH.
Qed.

Lemma formatInt_inj (p q : Z) : formatInt p = formatInt q -> p = q.
Proof.
  unfold formatInt. intros E.
  assert (Hnil : forall z, Z.to_int z <> Decimal.Pos Decimal.Nil
                           /\ Z.to_int z <> Decimal.Neg Decimal.Nil).
  { intros z. pose proof (to_of (Z.to_int z)) as Hn. rewrite of_to in Hn.
    split; intros Hz; rewrite Hz in Hn; discriminate Hn. }
  apply to_int_inj.
  assert (Some (Z.to_int p) = Some (Z.to_int q)) as [= ->]; [|done].
  rewrite <- (NilZero.isi (Z.to_int p)), <- (NilZero.isi (Z.to_int q));
    try apply Hnil.
  by rewrite E.
Qed.

(** X16. The segment written for a site is made of letters, digits and
    [-_.~%+] only, so no site name can add a path separator or a query
    parameter to the request; it reads back, as a query component, as the
    site; and different sites, or different pages of a site, never give
    the same request path. *)
Theorem clientsPath_unambiguous (site site' : string) (p q : Z) :
  allChars segmentChar (QueryEscape site) = true
  /\ (forall c, segmentChar c = true ->
        c <> "/"%char /\ c <> "?"%char /\ c <> "#"%char /\ c <> "&"%char
        /\ c <> "="%char /\ c <> " "%char
        /\ (32 < N_of_ascii c < 127)%N)
  /\ queryDecode (QueryEscape site) = Some site
  /\ (clientsPath site p = clientsPath site' p -> site = site')
  /\ (clientsPath site p = clientsPath site q -> p = q).
Proof.
  split; [apply QueryEscape_chars|]. split.
  { intros c Hc.
    destruct c as [[] [] [] [] [] [] [] []]; try discriminate Hc;
      repeat split; try discriminate; vm_compute; reflexivity. }
  split; [apply QueryEscape_decodes|]. unfold clientsPath. split.
  - intros E. apply append_cancel_l in E.
    apply append_cancel_r in E.
    assert (Some site = Some site') as [= ->]; [|done].
    by rewrite <- !QueryEscape_decodes, E.
  - intros E. apply append_cancel_l, append_cancel_l, append_cancel_l in E.
    apply append_cancel_r in E. by apply formatInt_inj.
Qed.

(** ** The signal, continued *)

Lemma unwrapsTo_chain (e : error) :
  unwrapsTo e errTokenExpired = true
  <-> exists msgs, e = fold_right wrapError errTokenExpired msgs.
Proof.
  induction e as [|msg|msg inner IH]; simpl.
  - split; [|done]. intros _. by exists [].
  - split; [done|]. intros [[|m msgs] E]; discriminate E.
  - destruct (decide (wrapError msg inner = errTokenExpired)) as [E|_];
      [discriminate E|].
    rewrite IH. split.
    + intros [msgs ->]. by exists (msg :: msgs).
    + intros [[|m msgs] E]; [discriminate E|].
      injection E as -> ->. by exists msgs.
Qed.

(** X17. [retryOnce] takes an error for the signal when its chain of wrapped
    errors ends in [errTokenExpired] itself, however deep; an error that
    only carries a message, even the message of the signal, is returned
    without a login, and so is a nil error. *)
Theorem signal_by_identity {R} `{Net} (try : R -> M (R * option error))
    (r : R) (s : State) :
  (forall e, errors_Is (Some e) errTokenExpired = true
             <-> exists msgs, e = fold_right wrapError errTokenExpired msgs)
  /\ (forall e,
        (forall msgs, e <> Some (fold_right wrapError errTokenExpired msgs)) ->
        snd (snd (try r s)) = e ->
        retryOnce try r s = try r s)
  /\ (snd (snd (try r s)) = Some (errorString "token expired/unauthorized") ->
      retryOnce try r s = try r s).
Proof.
  assert (Hplain : forall e,
    (forall msgs, e <> Some (fold_right wrapError errTokenExpired msgs)) ->
    snd (snd (try r s)) = e -> retryOnce try r s = try r s).
  { intros e Hne He. rewrite retryOnce_run.
    destruct (try r s) as [s1 [r1 e1]]. simpl in He. subst e1.
    destruct (errors_Is e errTokenExpired) eqn:Ee; [|done].
    destruct e as [e|]; [|done]. simpl in Ee.
    apply unwrapsTo_chain in Ee as [msgs ->]. by destruct (Hne msgs). }
  split; [intros e; apply unwrapsTo_chain|]. split; [exact Hplain|].
  apply Hplain. intros [|m msgs]; discriminate.
Qed.

(** ** The login, its answers *)

Section LoginAnswers.
Context `{Net}.

Ltac same_exchange E Hdo :=
  first
    [ injection Hdo as -> ->
    | match type of E with
      | _ = ?rhs =>
          let Heq := fresh "Heq" in
          assert (Heq : rhs = _) by (rewrite <- E; exact Hdo);
          injection Heq as -> ->
      end ].

(** X18. A login succeeds whenever both answers have status 200, the first
    names a controller and the second gives a token: the [errorCode]
    fields of the answers are not looked at.  The session then holds the
    token and the joined path, and exactly the two requests went out. *)
Theorem authenticate_succeeds (s : State) (rootPath newPath : string)
    (w1 w2 : World) (res1 res2 : Response) (ir : infoResult)
    (ar : authResult) :
  url_JoinPath (configPath (client s)) "/" = inr rootPath ->
  url_ParseErr (TrimSuffix rootPath "/" +:+ "/api/info") = None ->
  http_Do (infoRequest rootPath s) (world s) = (w1, inr res1) ->
  StatusCode res1 = 200 ->
  asInfo (RespBody res1) zeroInfoResult = (ir, None) ->
  irControllerID ir <> "" ->
  url_JoinPath (configPath (client s)) (irControllerID ir) = inr newPath ->
  url_ParseErr (TrimSuffix newPath "/" +:+ "/api/v2/login") = None ->
  http_Do (loginRequestOf newPath w1 s) w1 = (w2, inr res2) ->
  StatusCode res2 = 200 ->
  asAuth (RespBody res2) zeroAuthResult = (ar, None) ->
  arToken ar <> "" ->
  let '(s', err) := authenticate s in
  err = None
  /\ token (client s') = arToken ar
  /\ baseURL (client s') = TrimSuffix newPath "/"
  /\ world s' = w2
  /\ requests s'
     = requests s ++ [infoRequest rootPath s; loginRequestOf newPath w1 s].
Proof.
  intros Hroot Hp1 Hdo1 H1 Hir Hid Hnew Hp2 Hdo2 H2 Har Htok.
  apply String.eqb_neq in Hid, Htok.
  unfold authenticate, authenticateBody, SetToken, SetBaseURL, Username,
    Password, BaseURL, JarCookies.
  unfold_st. simpl. rewrite Hroot.
  rewrite getJSON_run. simpl. rewrite Hp1.
  destruct (http_Do _ (world s)) as [w1' x1] eqn:E1. same_exchange E1 Hdo1.
  unfold classify at 1. rewrite H1, Hir. simpl. rewrite Hid. simpl.
  rewrite Hnew. simpl.
  rewrite postJSON_run. simpl. rewrite Hp2.
  destruct (http_Do _ w1) as [w2' x2] eqn:E2. same_exchange E2 Hdo2.
  unfold classify at 1. rewrite H2, Har. simpl. rewrite Htok. simpl.
  rewrite (surjective_pairing (logCookies _ _)), logCookies_run. simpl.
  rewrite <- app_assoc. done.
Qed.

(** X19. The two refusals.  An answer to [/api/info] that names no controller
    ends the login there, with the code and message of the answer in the
    error and the credentials never sent; a login answer without a token
    ends it with the code and message of that answer, the token empty and
    the base path at the controller. *)
Theorem authenticate_refusals (s : State) (rootPath : string) (w1 : World)
    (res1 : Response) (ir : infoResult) :
  url_JoinPath (configPath (client s)) "/" = inr rootPath ->
  url_ParseErr (TrimSuffix rootPath "/" +:+ "/api/info") = None ->
  http_Do (infoRequest rootPath s) (world s) = (w1, inr res1) ->
  StatusCode res1 = 200 ->
  asInfo (RespBody res1) zeroInfoResult = (ir, None) ->
  (irControllerID ir = "" ->
     let '(s', err) := authenticate s in
     err = Some (errorString
                   ("missing controller ID: " +:+ formatInt (irErrorCode ir)
                    +:+ ": " +:+ Quote (irMsg ir)))
     /\ token (client s') = ""
     /\ baseURL (client s') = TrimSuffix rootPath "/"
     /\ requests s' = requests s ++ [infoRequest rootPath s])
  /\ (irControllerID ir <> "" ->
      forall newPath w2 res2 ar,
        url_JoinPath (configPath (client s)) (irControllerID ir)
        = inr newPath ->
        url_ParseErr (TrimSuffix newPath "/" +:+ "/api/v2/login") = None ->
        http_Do (loginRequestOf newPath w1 s) w1 = (w2, inr res2) ->
        StatusCode res2 = 200 ->
        asAuth (RespBody res2) zeroAuthResult = (ar, None) ->
        arToken ar = "" ->
        let '(s', err) := authenticate s in
        err = Some (errorString
                      ("auth failed: " +:+ formatInt (arErrorCode ar)
                       +:+ ": " +:+ Quote (arMsg ar)))
        /\ token (client s') = ""
        /\ baseURL (client s') = TrimSuffix newPath "/"
        /\ logger (client s') = logger (client s)).
Proof.
  intros Hroot Hp1 Hdo1 H1 Hir. split.
  - intros Hid. apply String.eqb_eq in Hid.
    unfold authenticate, authenticateBody, SetToken, SetBaseURL, Username,
      Password, BaseURL, JarCookies.
    unfold_st. simpl. rewrite Hroot.
    rewrite getJSON_run. simpl. rewrite Hp1.
    destruct (http_Do _ (world s)) as [w1' x1] eqn:E1. same_exchange E1 Hdo1.
    unfold classify at 1. rewrite H1, Hir. simpl. rewrite Hid. simpl. done.
  - intros Hid newPath w2 res2 ar Hnew Hp2 Hdo2 H2 Har Htok.
    apply String.eqb_neq in Hid. apply String.eqb_eq in Htok.
    unfold authenticate, authenticateBody, SetToken, SetBaseURL, Username,
      Password, BaseURL, JarCookies.
    unfold_st. simpl. rewrite Hroot.
    rewrite getJSON_run. simpl. rewrite Hp1.
    destruct (http_Do _ (world s)) as [w1' x1] eqn:E1. same_exchange E1 Hdo1.
    unfold classify at 1. rewrite H1, Hir. simpl. rewrite Hid. simpl.
    rewrite Hnew. simpl.
    rewrite postJSON_run. simpl. rewrite Hp2.
    destruct (http_Do _ w1) as [w2' x2] eqn:E2. same_exchange E2 Hdo2.
    unfold classify at 1. rewrite H2, Har. simpl. rewrite Htok. simpl. done.
Qed.

End LoginAnswers.

(** ** Runs on the scripted controller *)

Lemma doJSON_status_error_witness :
  snd (retryOnce (get "Default" 1) zeroClientsResult noContent)
  = (zeroClientsResult,
     Some (errorString
             (Quote "https://omada:8043/abc123/api/v2/sites/Default/clients?currentPage=1&currentPageSize=100&filters.active=true"
              +:+ " returned " +:+ Quote "204 No Content")))
  /\ authLog (fst (retryOnce (get "Default" 1) zeroClientsResult noContent))
     = []
  /\ length (pending (world
       (fst (retryOnce (get "Default" 1) zeroClientsResult noContent))))
     = 1%nat.
Proof.
  edestruct (@doJSON_status_error scripted ClientsResult
               (pageRequestOf "Default" 1 noContent) asClients
               zeroClientsResult noContent) as (_ & _ & Hr);
    [reflexivity|discriminate|discriminate|].
  rewrite (Hr "Default" 1 zeroClientsResult eq_refl eq_refl).
  repeat split.
Defined.

Lemma unparsable_url_sends_nothing_witness :
  let s := guardedState lostClient [okResponse (clientsBody threeOfTen)] in
  @url_ParseErr guarded (baseURL (client s) +:+ clientsPath "Default" 1)
  = Some (errorString "net/url: invalid control character in URL")
  /\ @get guarded "Default" 1 zeroClientsResult s
     = (s, (zeroClientsResult,
            Some (errorString "net/url: invalid control character in URL"))).
Proof.
  intros s.
  assert (Hp : @url_ParseErr guarded
                 (baseURL (client s) +:+ clientsPath "Default" 1)
               = Some (errorString "net/url: invalid control character in URL"))
    by reflexivity.
  split; [exact Hp|].
  destruct (@unparsable_url_sends_nothing guarded ClientsResult
              (clientsPath "Default" 1) NoBody asClients zeroClientsResult
              s _ Hp) as (_ & _ & Hget).
  exact (Hget "Default" 1 zeroClientsResult eq_refl).
Defined.

Lemma get_success_witness :
  snd (get "Default" 1 zeroClientsResult twoPages) = (firstPage, None)
  /\ ErrorCode firstPage = 0.
Proof.
  assert (Hg : get "Default" 1 zeroClientsResult twoPages
               = (fst (get "Default" 1 zeroClientsResult twoPages),
                  (firstPage, None))) by (vm_compute; reflexivity).
  split; [by rewrite Hg|].
  by destruct (get_success _ _ _ _ _ _ Hg) as [? _].
Defined.

(** The expired answer carried a record and a total; the answer after the
    login names the MAC only.  The envelope of the fetch has code 0 and
    keeps the message, the total and the host name of the expired
    answer. *)
Lemma fetched_envelopes_ok_witness :
  let left := envelope 0 "expired" 1 [clientOf "aa" "old-host"] in
  snd (get "Default" 1 zeroClientsResult staleRetry)
  = (expiredWithData, Some errTokenExpired)
  /\ snd (fetchPages 1 "Default" 1 staleRetry) = Some [left]
  /\ snd (retryOnce (get "Default" 1) zeroClientsResult staleRetry)
     = (left, None)
  /\ Forall (fun r => ErrorCode r = 0) [left]
  /\ ErrorCode left = 0
  /\ asClients (macOnlyDoc "aa") expiredWithData = (left, None)
  /\ asClients (macOnlyDoc "aa") zeroClientsResult
     = ({| ErrorCode := 0; Msg := "";
           Result := {| CurrentPage := 0; CurrentSize := 0; TotalRows := 0;
                        Data := [Some (clientOf "aa" "")] |} |}, None).
Proof.
  intros left.
  assert (Hf : fetchPages 1 "Default" 1 staleRetry
               = (fst (fetchPages 1 "Default" 1 staleRetry), Some [left]))
    by (vm_compute; reflexivity).
  assert (Hr : retryOnce (get "Default" 1) zeroClientsResult staleRetry
               = (fst (retryOnce (get "Default" 1) zeroClientsResult
                         staleRetry), (left, None)))
    by (vm_compute; reflexivity).
  destruct (fetched_envelopes_ok "Default") as [Hall Hone].
  split; [vm_compute; reflexivity|]. split; [by rewrite Hf|].
  split; [by rewrite Hr|].
  split; [exact (Hall _ _ _ _ _ Hf)|].
  split; [exact (proj1 (Hone _ _ _ _ Hr))|].
  split; vm_compute; reflexivity.
Defined.

(** Both answers carry a nonzero code, and the login succeeds. *)
Lemma authenticate_succeeds_witness :
  snd (authenticate oddCodes) = None
  /\ token (client (fst (authenticate oddCodes))) = "T1"
  /\ baseURL (client (fst (authenticate oddCodes)))
     = "https://omada:8043/abc123".
Proof.
  pose (w1 := fst (scriptDo (infoRequest "https://omada:8043/" oddCodes)
                     (world oddCodes))).
  pose (w2 := fst (scriptDo
                     (loginRequestOf "https://omada:8043/abc123" w1 oddCodes)
                     w1)).
  assert (Hid : "abc123" <> "") by discriminate.
  assert (Htok : "T1" <> "") by discriminate.
  generalize (authenticate_succeeds oddCodes
    "https://omada:8043/" "https://omada:8043/abc123" w1 w2
    {| StatusCode := 200; Status := "200 OK";
       RespBody := infoDoc (-1200) "busy" "abc123" |}
    {| StatusCode := 200; Status := "200 OK";
       RespBody := loginDoc 7 "odd" "T1" |}
    {| irErrorCode := -1200; irMsg := "busy"; irControllerID := "abc123" |}
    {| arErrorCode := 7; arMsg := "odd"; arRoleType := 0; arToken := "T1" |}
    eq_refl eq_refl eq_refl eq_refl eq_refl Hid eq_refl eq_refl eq_refl
    eq_refl eq_refl Htok).
  destruct (authenticate oddCodes) as [s' err]. cbn [fst snd].
  intros (-> & -> & -> & _). repeat split.
Defined.

Lemma authenticate_refusals_witness :
  snd (authenticate noController)
  = Some (errorString
            ("missing controller ID: -1: " +:+ Quote "not ready"))
  /\ length (requests (fst (authenticate noController))) = 1%nat
  /\ snd (authenticate noToken)
     = Some (errorString ("auth failed: -30109: " +:+ Quote "bad password"))
  /\ token (client (fst (authenticate noToken))) = "".
Proof.
  split; [|split; [|split]].
  - edestruct (authenticate_refusals noController "https://omada:8043/")
      as [Hno _];
      [reflexivity|reflexivity|reflexivity|reflexivity|reflexivity|].
    specialize (Hno eq_refl).
    destruct (authenticate noController) as [s' err]. cbn [fst snd].
    by destruct Hno as (-> & _).
  - edestruct (authenticate_refusals noController "https://omada:8043/")
      as [Hno _];
      [reflexivity|reflexivity|reflexivity|reflexivity|reflexivity|].
    specialize (Hno eq_refl).
    destruct (authenticate noController) as [s' err]. cbn [fst snd].
    destruct Hno as (_ & _ & _ & ->). reflexivity.
  - edestruct (authenticate_refusals noToken "https://omada:8043/")
      as [_ Htok];
      [reflexivity|reflexivity|reflexivity|reflexivity|reflexivity|].
    assert (Hid : "abc123" <> "") by discriminate.
    epose proof (Htok Hid "https://omada:8043/abc123" _ _ _
                   eq_refl eq_refl eq_refl eq_refl eq_refl eq_refl) as Hr.
    destruct (authenticate noToken) as [s' err]. cbn [fst snd].
    by destruct Hr as (-> & _).
  - edestruct (authenticate_refusals noToken "https://omada:8043/")
      as [_ Htok];
      [reflexivity|reflexivity|reflexivity|reflexivity|reflexivity|].
    assert (Hid : "abc123" <> "") by discriminate.
    epose proof (Htok Hid "https://omada:8043/abc123" _ _ _
                   eq_refl eq_refl eq_refl eq_refl eq_refl eq_refl) as Hr.
    destruct (authenticate noToken) as [s' err]. cbn [fst snd].
    by destruct Hr as (_ & -> & _).
Defined.

(** The total an expired answer declared stops the loop: the record comes
    back with the host name of the expired answer, and the fifth answer
    of the script is never asked for. *)
Example stale_envelope_returned :
  let '(s', out) := ConnectedClients "Default" staleRetry in
  out = Returns (Some [Some (clientOf "aa" "old-host")], None)
  /\ authLog s' = [true]
  /\ length (pending (world s')) = 1%nat.
Proof. vm_compute. repeat split; reflexivity. Qed.

(** A [null] among the records of a page: the page is fetched, and the
    call ends in the panic of [dedupeClients]. *)
Example null_record_panics :
  let '(s', out) := ConnectedClients "Default" nullPage in
  out = Panics
  /\ length (requests s') = 1%nat
  /\ logger (client s') = [].
Proof. vm_compute. repeat split; reflexivity. Qed.
